(** * Checkout and inventory ledger engine of the point-of-sale application

    A shallow embedding of the checkout path of [electron/main.ts]
    ([splitToJson], [computeReceiptTotals], [createReceiptWithItems], which
    the handlers import from [./bootstrap]) and of the [pos:checkout] IPC
    handler of [electron/handlers.ts], over a model of the SQLite store
    declared in [ensureDbSchema].

    Numbers.  The source computes on JavaScript numbers.  The model of
    the store takes them as exact rationals [Q]: rounding, [NaN] and the
    infinities are outside of it.  Arithmetic identities are stated up to
    [Qeq] ([==]); what is stored and read back is compared with Leibniz
    equality.  Where rounding and overflow decide, the pricing stage is
    taken once more on binary64 numbers ([Double]).

    Store.  Tables with a primary key that is looked up or updated by key
    ([users], [products], [receipts], [transactions], [store_settings]) are
    finite maps from the row id to the remaining columns; the two tables the
    checkout only appends to ([transaction_items], [product_logs]) are lists
    of rows in insertion order.  [AUTOINCREMENT] ids follow SQLite:
    one more than the larger of the table's largest row id and its
    [sqlite_sequence] entry. *)

From Stdlib Require Import ZArith QArith Qminmax String List Lia Lqa.
From stdpp Require Import base option list gmap strings.

Local Open Scope Z_scope.

(** ** Numbers *)

(** [x || 0] on a number: a falsy number (zero) is replaced by [0]. *)
Definition orZero (x : Q) : Q := if Qeq_bool x 0 then 0%Q else x.

(** [x < y] on numbers, as a boolean test. *)
Definition Qltb (x y : Q) : bool := negb (Qle_bool y x).

(** [rows.reduce((acc, r) => acc + f(r), 0)] *)
Definition reduce_sum {A : Type} (f : A -> Q) (rows : list A) : Q :=
  fold_left (fun acc r => (acc + f r)%Q) rows 0%Q.

(** ** JSON text of an object with numeric fields, kept as its syntax tree:
    the field names and values in the order [JSON.stringify] prints them *)

Inductive Json : Type :=
| JObject (fields : list (string * Q)).

(** ** Rows of the schema *)

Module User.
Record t : Type := mk
  { name : string; password : string; role : string; active : bool;
    createdAt : Z }.
End User.

Module Product.
Record t : Type := mk
  { barcode : string; productName : string;
    categoryId : Z; supplierId : Z;
    quantity : Q; brand : string; unit : string;
    mrp : Q; cost : Q; gst : Q; reorderLevel : Q;
    updatedAt : option Z }.

(** [SET quantity = q, updated_at = at] on one row. *)
Definition set_stock (q : Q) (at_ : Z) (p : t) : t :=
  {| barcode := barcode p; productName := productName p;
     categoryId := categoryId p; supplierId := supplierId p;
     quantity := q; brand := brand p; unit := unit p;
     mrp := mrp p; cost := cost p; gst := gst p;
     reorderLevel := reorderLevel p; updatedAt := Some at_ |}.
End Product.

Module Receipt.
Record t : Type := mk
  { totalAmount : Q; tax : Q; paymentSplit : Json; discount : Q;
    receiptDate : Z; createdBy : Z }.
End Receipt.

Module Transaction.
Record t : Type := mk
  { finalAmount : Q; tax : Q; paymentSplit : Json; discount : Q;
    transactionDate : Z; createdBy : Z }.
End Transaction.

Module TransactionItem.
Record t : Type := mk
  { transactionId : Z; productId : Z; quantity : Q; unitPrice : Q;
    amount : Q; tax : Q; discount : Q }.
End TransactionItem.

Module ProductLog.
Record t : Type := mk
  { productId : Z; receiptId : option Z; type : string; quantity : Q;
    amount : Q; tax : Q; discount : Q; datetime : Z }.
End ProductLog.

Module StoreSettings.
Record t : Type := mk
  { userId : option Z; allowNegativeStock : bool }.
End StoreSettings.

(** ** The store *)

(** The [sqlite_sequence] entries of the tables the checkout inserts into. *)
Record Sequences : Type := mkSequences
  { seq_transactions : Z; seq_receipts : Z;
    seq_transaction_items : Z; seq_product_logs : Z }.

Record Db : Type := mkDb
  { users : gmap Z User.t;
    products : gmap Z Product.t;
    receipts : gmap Z Receipt.t;
    transactions : gmap Z Transaction.t;
    transactionItems : list (Z * TransactionItem.t);
    productLogs : list (Z * ProductLog.t);
    storeSettings : gmap Z StoreSettings.t;
    sqlite_sequence : Sequences }.

(** Largest row id of a keyed table (0 when it is empty). *)
Definition max_key {A : Type} (m : gmap Z A) : Z :=
  map_fold (fun k _ acc => Z.max k acc) 0 m.

(** Largest row id of an appended table. *)
Definition max_id {A : Type} (rows : list (Z * A)) : Z :=
  fold_right (fun r acc => Z.max (fst r) acc) 0 rows.

Definition next_rowid (seq largest : Z) : Z := Z.max seq largest + 1.

(** ** Errors and results *)

Inductive Error : Type :=
| ProductNotFound (productId : Z)          (* "Product not found: <id>" *)
| InvalidQuantity                          (* "Invalid quantity" *)
| InsufficientStock (productName : string) (* "Insufficient stock for <name>" *)
| ForeignKeyConstraint                     (* SQLITE_CONSTRAINT_FOREIGNKEY *)
| PrimaryKeyConstraint                     (* SQLITE_CONSTRAINT_PRIMARYKEY *)
| IoError.                                 (* any other failure of a statement *)

Inductive Result (A : Type) : Type :=
| Ok (a : A)
| Err (e : Error).
Arguments Ok {A} a.
Arguments Err {A} e.

Definition is_ok {A : Type} (r : Result A) : bool :=
  match r with Ok _ => true | Err _ => false end.

(** The pricing stage throws one of the three application errors. *)
Definition pricing_error (e : Error) : bool :=
  match e with
  | ProductNotFound _ | InvalidQuantity | InsufficientStock _ => true
  | _ => false
  end.

(** [xs.map(f)] where [f] may throw: the first exception ends the map. *)
Fixpoint mapM {A B : Type} (f : A -> Result B) (xs : list A) : Result (list B) :=
  match xs with
  | [] => Ok []
  | x :: xs' =>
      match f x with
      | Err e => Err e
      | Ok y =>
          match mapM f xs' with
          | Err e => Err e
          | Ok ys => Ok (y :: ys)
          end
      end
  end.

(** ** Statements *)

Definition is_present {A : Type} (m : gmap Z A) (k : Z) : bool :=
  match m !! k with Some _ => true | None => false end.

(** [INSERT INTO transactions]: [created_by] references [users(id)]; the
    row id is assigned by [AUTOINCREMENT] and returned as
    [lastInsertRowid]. *)
Definition insert_transactions (v : Transaction.t) (db : Db) : Result (Db * Z) :=
  if is_present (users db) (Transaction.createdBy v) then
    let id := next_rowid (seq_transactions (sqlite_sequence db))
                         (max_key (transactions db)) in
    Ok ({| users := users db; products := products db;
           receipts := receipts db;
           transactions := <[id := v]> (transactions db);
           transactionItems := transactionItems db;
           productLogs := productLogs db;
           storeSettings := storeSettings db;
           sqlite_sequence :=
             {| seq_transactions := id;
                seq_receipts := seq_receipts (sqlite_sequence db);
                seq_transaction_items :=
                  seq_transaction_items (sqlite_sequence db);
                seq_product_logs := seq_product_logs (sqlite_sequence db) |}
        |}, id)
  else Err ForeignKeyConstraint.

(** [INSERT INTO receipts] with an explicit [id]: the id must be free;
    [created_by] references [users(id)]. *)
Definition insert_receipts (id : Z) (v : Receipt.t) (db : Db) : Result (Db * Z) :=
  if is_present (receipts db) id then Err PrimaryKeyConstraint
  else if is_present (users db) (Receipt.createdBy v) then
    Ok ({| users := users db; products := products db;
           receipts := <[id := v]> (receipts db);
           transactions := transactions db;
           transactionItems := transactionItems db;
           productLogs := productLogs db;
           storeSettings := storeSettings db;
           sqlite_sequence :=
             {| seq_transactions := seq_transactions (sqlite_sequence db);
                seq_receipts := Z.max (seq_receipts (sqlite_sequence db)) id;
                seq_transaction_items :=
                  seq_transaction_items (sqlite_sequence db);
                seq_product_logs := seq_product_logs (sqlite_sequence db) |}
        |}, id)
  else Err ForeignKeyConstraint.

(** [INSERT INTO transaction_items]: references [transactions(id)] and
    [products(id)]. *)
Definition insert_transactionItems (v : TransactionItem.t) (db : Db)
  : Result (Db * Z) :=
  if is_present (transactions db) (TransactionItem.transactionId v)
     && is_present (products db) (TransactionItem.productId v) then
    let id := next_rowid (seq_transaction_items (sqlite_sequence db))
                         (max_id (transactionItems db)) in
    Ok ({| users := users db; products := products db;
           receipts := receipts db; transactions := transactions db;
           transactionItems := transactionItems db ++ [(id, v)];
           productLogs := productLogs db;
           storeSettings := storeSettings db;
           sqlite_sequence :=
             {| seq_transactions := seq_transactions (sqlite_sequence db);
                seq_receipts := seq_receipts (sqlite_sequence db);
                seq_transaction_items := id;
                seq_product_logs := seq_product_logs (sqlite_sequence db) |}
        |}, id)
  else Err ForeignKeyConstraint.

(** [INSERT INTO product_logs]: references [products(id)] and, when not
    null, [receipts(id)]. *)
Definition insert_productLogs (v : ProductLog.t) (db : Db) : Result (Db * Z) :=
  if is_present (products db) (ProductLog.productId v)
     && match ProductLog.receiptId v with
        | Some rid => is_present (receipts db) rid
        | None => true
        end then
    let id := next_rowid (seq_product_logs (sqlite_sequence db))
                         (max_id (productLogs db)) in
    Ok ({| users := users db; products := products db;
           receipts := receipts db; transactions := transactions db;
           transactionItems := transactionItems db;
           productLogs := productLogs db ++ [(id, v)];
           storeSettings := storeSettings db;
           sqlite_sequence :=
             {| seq_transactions := seq_transactions (sqlite_sequence db);
                seq_receipts := seq_receipts (sqlite_sequence db);
                seq_transaction_items :=
                  seq_transaction_items (sqlite_sequence db);
                seq_product_logs := id |}
        |}, id)
  else Err ForeignKeyConstraint.

(** [UPDATE products SET quantity = q, updated_at = at WHERE id = id]:
    a statement that matches no row changes nothing and is no error. *)
Definition update_products (id : Z) (q : Q) (at_ : Z) (db : Db) : Result (Db * Z) :=
  Ok ({| users := users db;
         products := alter (Product.set_stock q at_) id (products db);
         receipts := receipts db; transactions := transactions db;
         transactionItems := transactionItems db;
         productLogs := productLogs db;
         storeSettings := storeSettings db;
         sqlite_sequence := sqlite_sequence db |}, id).

(** ** The unit of work

    The body handed to [sqlite.transaction] runs statements one after the
    other on the store; a statement that throws leaves the writes made so
    far in place and ends the body.  The state carries the store and the
    number of statements run so far.  The environment says which
    statements fail for a reason of the store's own (disk, lock) and what
    [new Date()] returns when a statement is built. *)

Record Env : Type := mkEnv
  { io_fault : nat -> bool;
    clock : nat -> Z }.

Definition TxState : Type := (Db * nat)%type.

Definition Tx (A : Type) : Type := TxState -> TxState * Result A.

Definition ret {A : Type} (a : A) : Tx A := fun st => (st, Ok a).

Definition bind {A B : Type} (m : Tx A) (k : A -> Tx B) : Tx B :=
  fun st =>
    match m st with
    | (st', Ok a) => k a st'
    | (st', Err e) => (st', Err e)
    end.

Notation "x <- m ;; k" := (bind m (fun x => k))
  (at level 100, m at next level, right associativity).

(** [.run()] of a statement. *)
Definition run (env : Env) (stmt : Db -> Result (Db * Z)) : Tx Z :=
  fun '(db, n) =>
    if io_fault env n then ((db, S n), Err IoError)
    else match stmt db with
         | Ok (db', rowid) => ((db', S n), Ok rowid)
         | Err e => ((db, S n), Err e)
         end.

(** [new Date()] *)
Definition newDate (env : Env) : Tx Z := fun '(db, n) => ((db, n), Ok (clock env n)).

(** Reading the store inside the body. *)
Definition readDb {A : Type} (f : Db -> Result A) : Tx A :=
  fun '(db, n) => ((db, n), f db).

(** [for (const x of xs) { body }] *)
Fixpoint forEach {A : Type} (body : A -> Tx unit) (xs : list A) : Tx unit :=
  match xs with
  | [] => ret tt
  | x :: xs' => _ <- body x ;; forEach body xs'
  end.

(** [sqlite.transaction(fn)()]: commit when [fn] returns, roll back to the
    store before the call when it throws, and rethrow. *)
Definition sqlite_transaction {A : Type} (fn : Tx A) (db : Db) : Db * Result A :=
  match fn (db, O) with
  | ((db', _), Ok a) => (db', Ok a)
  | (_, Err e) => (db, Err e)
  end.

(** ** [splitToJson] *)

Record PaymentSplit : Type := mkPaymentSplit
  { cashAmt : Q; upiAmt : Q; cardAmt : Q }.

Definition splitToJson (split : PaymentSplit) : Json :=
  JObject [ ("cashAmt"%string, orZero (cashAmt split));
            ("upiAmt"%string, orZero (upiAmt split));
            ("cardAmt"%string, orZero (cardAmt split)) ].

(** ** [computeReceiptTotals] *)

Record Item : Type := mkItem { productId : Z; qty : Q }.

(** A priced line: the product row as it was read (its id and columns),
    the quantity, and the line's gross and tax. *)
Record Line : Type := mkLine
  { product_id : Z; product : Product.t;
    line_qty : Q; lineGross : Q; lineTax : Q }.

Definition priceLine (db : Db) (it : Item) : Result Line :=
  match products db !! productId it with
  | None => Err (ProductNotFound (productId it))
  | Some p =>
      let qty := qty it in
      if Qle_bool qty 0 then Err InvalidQuantity
      else if Qltb (Product.quantity p) qty
      then Err (InsufficientStock (Product.productName p))
      else
        let lineGross := (Product.mrp p * qty)%Q in
        let lineTax := (lineGross * orZero (Product.gst p) / 100)%Q in
        Ok {| product_id := productId it; product := p;
              line_qty := qty; lineGross := lineGross; lineTax := lineTax |}
  end.

Record Totals : Type := mkTotals
  { rows : list Line; subtotal : Q; tax : Q; discount : Q; total : Q }.

Definition computeReceiptTotals (db : Db) (items : list Item) (discount : Q)
  : Result Totals :=
  match mapM (priceLine db) items with
  | Err e => Err e
  | Ok rows =>
      let subtotal := reduce_sum lineGross rows in
      let tax := reduce_sum lineTax rows in
      let discount := Qmax 0 (Qmin (orZero discount) subtotal) in
      let total := Qmax 0 (subtotal - discount + tax) in
      Ok {| rows := rows; subtotal := subtotal; tax := tax;
            discount := discount; total := total |}
  end.

(** ** [createReceiptWithItems] *)

Record CheckoutArgs : Type := mkCheckoutArgs
  { createdBy : Z; receiptDate : Z; discountRequested : Q;
    paymentSplit : PaymentSplit; items : list Item }.

Record CheckoutResult : Type := mkCheckoutResult
  { receiptId : Z; transactionId : Z; totalAmount : Q;
    resultTax : Q; resultDiscount : Q }.

Definition lineDiscount (subtotal discount : Q) (r : Line) : Q :=
  if Qltb 0 subtotal then (discount * lineGross r / subtotal)%Q else 0%Q.

Definition mkTransactionItem (transactionId : Z) (subtotal discount : Q)
    (r : Line) : TransactionItem.t :=
  {| TransactionItem.transactionId := transactionId;
     TransactionItem.productId := product_id r;
     TransactionItem.quantity := line_qty r;
     TransactionItem.unitPrice := Product.mrp (product r);
     TransactionItem.amount := lineGross r;
     TransactionItem.tax := lineTax r;
     TransactionItem.discount := lineDiscount subtotal discount r |}.

Definition mkProductLog (receiptId receiptDate : Z) (subtotal discount : Q)
    (r : Line) : ProductLog.t :=
  {| ProductLog.productId := product_id r;
     ProductLog.receiptId := Some receiptId;
     ProductLog.type := "sale"%string;
     ProductLog.quantity := line_qty r;
     ProductLog.amount := lineGross r;
     ProductLog.tax := lineTax r;
     ProductLog.discount := lineDiscount subtotal discount r;
     ProductLog.datetime := receiptDate |}.

(** The body of the loop over the priced lines. *)
Definition persistLine (env : Env) (transactionId receiptDate : Z)
    (subtotal discount : Q) (r : Line) : Tx unit :=
  _ <- run env (insert_transactionItems
                  (mkTransactionItem transactionId subtotal discount r)) ;;
  _ <- run env (insert_productLogs
                  (mkProductLog transactionId receiptDate subtotal discount r)) ;;
  now <- newDate env ;;
  _ <- run env (update_products (product_id r)
                  (Product.quantity (product r) - line_qty r)%Q now) ;;
  ret tt.

(** The values of the [transactions] row and of the [receipts] row. *)
Definition transactionValues (args : CheckoutArgs) (t : Totals) : Transaction.t :=
  {| Transaction.finalAmount := total t;
     Transaction.tax := tax t;
     Transaction.paymentSplit := splitToJson (paymentSplit args);
     Transaction.discount := discount t;
     Transaction.transactionDate := receiptDate args;
     Transaction.createdBy := createdBy args |}.

Definition receiptValues (args : CheckoutArgs) (t : Totals) : Receipt.t :=
  {| Receipt.totalAmount := total t;
     Receipt.tax := tax t;
     Receipt.paymentSplit := splitToJson (paymentSplit args);
     Receipt.discount := discount t;
     Receipt.receiptDate := receiptDate args;
     Receipt.createdBy := createdBy args |}.

(** The function passed to [sqlite.transaction]. *)
Definition createReceiptWithItems_body (env : Env) (args : CheckoutArgs)
  : Tx CheckoutResult :=
  t <- readDb (fun db =>
         computeReceiptTotals db (items args) (discountRequested args)) ;;
  transactionId <- run env (insert_transactions (transactionValues args t)) ;;
  (* Keep receipts in-sync (used by existing UI) *)
  _ <- run env (insert_receipts transactionId (receiptValues args t)) ;;
  let receiptId := transactionId in
  _ <- forEach (persistLine env transactionId (receiptDate args)
                  (subtotal t) (discount t)) (rows t) ;;
  ret {| receiptId := receiptId; transactionId := transactionId;
         totalAmount := total t; resultTax := tax t;
         resultDiscount := discount t |}.

Definition createReceiptWithItems (env : Env) (args : CheckoutArgs) (db : Db)
  : Db * Result CheckoutResult :=
  sqlite_transaction (createReceiptWithItems_body env args) db.

(** ** The [pos:checkout] handler *)

Record PosCheckoutArgs : Type := mkPosCheckoutArgs
  { pos_createdBy : Z; pos_discount : Q;
    pos_paymentSplit : PaymentSplit; pos_items : list Item }.

(** [ok(res)] is [{ success: true, ...res }]; [fail(e)] is
    [{ success: false, error: String(e) }]. *)
Inductive Response : Type :=
| ok (res : CheckoutResult)
| fail (error : Error).

Definition success (r : Response) : bool :=
  match r with ok _ => true | fail _ => false end.

(** [now] is what [new Date()] returns when the handler is entered. *)
Definition pos_checkout (env : Env) (now : Z) (args : PosCheckoutArgs) (db : Db)
  : Db * Response :=
  match createReceiptWithItems env
          {| createdBy := pos_createdBy args;
             receiptDate := now;
             discountRequested := orZero (pos_discount args);
             paymentSplit := pos_paymentSplit args;
             items := pos_items args |} db with
  | (db', Ok res) => (db', ok res)
  | (db', Err e) => (db', fail e)
  end.

(** ** The browser fallback

    [installApiFallback] installs a second implementation of the same
    API over an in-memory store ([createMockApi], [computeTotals] and its
    [checkout]).  Only what its checkout does to the products is modelled
    here.  A priced line of the fallback holds the product object that
    [db.products.find] returned, which is the object in the array: the
    model keeps its index. *)

Module Mock.

Record MockProduct : Type := mkMockProduct
  { id : Z; productName : string; quantity : Q; mrp : Q; gst : Q }.

Record Row : Type := mkRow
  { product_ref : nat; row_qty : Q; lineGross : Q; lineTax : Q }.

(** [db.products.find((x) => x.id === id)], as the index of the object. *)
Fixpoint find_index (pid : Z) (ps : list MockProduct) : option nat :=
  match ps with
  | [] => None
  | p :: ps' => if Z.eqb (id p) pid then Some O else S <$> find_index pid ps'
  end.

Definition priceLine (ps : list MockProduct) (it : Item) : Result Row :=
  match find_index (productId it) ps with
  | None => Err (ProductNotFound (productId it))
  | Some i =>
      match ps !! i with
      | None => Err (ProductNotFound (productId it))
      | Some p =>
          let qty := qty it in
          if Qle_bool qty 0 then Err InvalidQuantity
          else if Qltb (quantity p) qty
          then Err (InsufficientStock (productName p))
          else
            let lineGross := (mrp p * qty)%Q in
            let lineTax := (lineGross * orZero (gst p) / 100)%Q in
            Ok {| product_ref := i; row_qty := qty;
                  lineGross := lineGross; lineTax := lineTax |}
      end
  end.

(** [r.product.quantity -= r.qty] *)
Definition sell (ps : list MockProduct) (r : Row) : list MockProduct :=
  alter (fun p => {| id := id p; productName := productName p;
                     quantity := quantity p - row_qty r;
                     mrp := mrp p; gst := gst p |})
        (product_ref r) ps.

(** The products after [checkout]: priced by [computeTotals], then sold
    line by line. *)
Definition checkout_products (ps : list MockProduct) (its : list Item)
  : Result (list MockProduct) :=
  match mapM (priceLine ps) its with
  | Err e => Err e
  | Ok rows => Ok (fold_left sell rows ps)
  end.

End Mock.

(** ** Vocabulary of the properties *)

(** What a statement of the loop leaves alone. *)
Definition same_ledger (db db' : Db) : Prop :=
  users db' = users db /\ receipts db' = receipts db /\
  transactions db' = transactions db /\ storeSettings db' = storeSettings db.

(** The last line of a cart that sells product [pid], if any. *)
Fixpoint last_line (pid : Z) (rows : list Line) : option Line :=
  match rows with
  | [] => None
  | r :: rs =>
      match last_line pid rs with
      | Some r' => Some r'
      | None => if Z.eqb (product_id r) pid then Some r else None
      end
  end.

(** The total quantity of product [pid] a cart asks for. *)
Definition requested_qty (pid : Z) (its : list Item) : Q :=
  reduce_sum qty (filter (fun it => productId it = pid) its).

(** No statement numbered from [n] up to [m], [m] excluded, fails for a
    reason of the store's own. *)
Definition no_fault (env : Env) (n m : nat) : Prop :=
  forall k : nat, (n <= k < m)%nat -> io_fault env k = false.

(** The id the [transactions] row of a checkout on [db] gets. *)
Definition next_transaction_id (db : Db) : Z :=
  next_rowid (seq_transactions (sqlite_sequence db)) (max_key (transactions db)).

(** The store [db'] and the result [res] of a checkout of [args] on [db]
    that priced its lines as [t] and committed. *)
Record Committed (env : Env) (args : CheckoutArgs) (db db' : Db)
    (res : CheckoutResult) (t : Totals) : Prop := mkCommitted
  { c_no_fault : no_fault env 0 (2 + 3 * length (rows t));
    c_result :
      res = {| receiptId := next_transaction_id db;
               transactionId := next_transaction_id db;
               totalAmount := total t; resultTax := tax t;
               resultDiscount := discount t |};
    c_actor : is_Some (users db !! createdBy args);
    c_transaction_fresh : transactions db !! next_transaction_id db = None;
    c_receipt_fresh : receipts db !! next_transaction_id db = None;
    c_users : users db' = users db;
    c_storeSettings : storeSettings db' = storeSettings db;
    c_transactions :
      transactions db' =
      <[next_transaction_id db := transactionValues args t]> (transactions db);
    c_receipts :
      receipts db' =
      <[next_transaction_id db := receiptValues args t]> (receipts db);
    c_transactionItems :
      exists new,
        transactionItems db' = transactionItems db ++ new /\
        map snd new =
        map (mkTransactionItem (next_transaction_id db) (subtotal t) (discount t))
            (rows t);
    c_productLogs :
      exists new,
        productLogs db' = productLogs db ++ new /\
        map snd new =
        map (mkProductLog (next_transaction_id db) (receiptDate args)
                          (subtotal t) (discount t))
            (rows t);
    c_products :
      forall pid,
        match last_line pid (rows t) with
        | None => products db' !! pid = products db !! pid
        | Some r =>
            exists at_,
              products db' !! pid =
              Product.set_stock (Product.quantity (product r) - line_qty r)%Q at_
                <$> products db !! pid
        end }.

(** ** A sample store and some carts *)

Definition sample_product (name : string) (stock price gstRate : Q) : Product.t :=
  {| Product.barcode := name; Product.productName := name;
     Product.categoryId := 1; Product.supplierId := 1;
     Product.quantity := stock; Product.brand := "AVM"%string;
     Product.unit := "pc"%string;
     Product.mrp := price; Product.cost := 0%Q; Product.gst := gstRate;
     Product.reorderLevel := 0%Q; Product.updatedAt := None |}.

Definition sample_user (name : string) (active : bool) : User.t :=
  {| User.name := name; User.password := "$2b$10$hash"%string;
     User.role := "staff"%string; User.active := active; User.createdAt := 0 |}.

(** Two users, the second one disabled; rice (10 in stock at 10, no tax),
    oil (3 in stock at 100, 12% tax) and a bottle return booked at a
    negative price; a settings row that allows negative stock. *)
Definition shop : Db :=
  {| users := <[1 := sample_user "admin" true]>
                (<[2 := sample_user "former" false]> ∅);
     products := <[1 := sample_product "Rice" 10 10 0]>
                   (<[2 := sample_product "Oil" 3 100 12]>
                      (<[3 := sample_product "Bottle return" 5 (-10) 0]> ∅));
     receipts := ∅; transactions := ∅;
     transactionItems := []; productLogs := [];
     storeSettings :=
       {[ 1 := {| StoreSettings.userId := Some 1;
                  StoreSettings.allowNegativeStock := true |} ]};
     sqlite_sequence := mkSequences 0 0 0 0 |}.

(** No statement fails for a reason of the store's own. *)
Definition calm : Env := {| io_fault := fun _ => false; clock := fun n => 1000 + Z.of_nat n |}.

(** The fourth statement (the log entry of the first line) fails. *)
Definition faulty : Env :=
  {| io_fault := fun n => Nat.eqb n 3; clock := fun n => 1000 + Z.of_nat n |}.

Definition cash (amount : Q) : PaymentSplit :=
  {| cashAmt := amount; upiAmt := 0; cardAmt := 0 |}.

Definition cart (by_ : Z) (discount : Q) (items : list Item) : CheckoutArgs :=
  {| createdBy := by_; receiptDate := 500; discountRequested := discount;
     paymentSplit := cash 0; items := items |}.

(** The same product on two lines: 2 and 3 units of rice. *)
Definition cart_rice_twice : CheckoutArgs :=
  cart 1 0 [ {| productId := 1; qty := 2 |}; {| productId := 1; qty := 3 |} ].

(** 5 units of oil, of which 3 are in stock. *)
Definition cart_oil_5 : CheckoutArgs := cart 1 0 [ {| productId := 2; qty := 5 |} ].

(** One and a half units of oil and 5 of rice, 20 off the bill. *)
Definition cart_two_lines : CheckoutArgs :=
  cart 1 20 [ {| productId := 2; qty := 3 # 2 |}; {| productId := 1; qty := 5 |} ].

(** What the sample store answers to [cart_two_lines], and the store it is
    left in: 198 to pay, of which 18 of tax, after 20 of discount (the
    fractions are the ones the computation yields, not reduced). *)
Definition sale_two_lines : CheckoutResult :=
  {| receiptId := 1; transactionId := 1;
     totalAmount := 7920000 # 40000; resultTax := 360000 # 20000;
     resultDiscount := 20 |}.

Definition shop_after_two_lines : Db :=
  fst (createReceiptWithItems calm cart_two_lines shop).

(** One bottle return, 5 off the bill. *)
Definition cart_return : CheckoutArgs := cart 1 5 [ {| productId := 3; qty := 1 |} ].

(** A call of the handler with nothing in the cart. *)
Definition empty_cart_call : PosCheckoutArgs :=
  {| pos_createdBy := 1; pos_discount := 0; pos_paymentSplit := cash 0;
     pos_items := [] |}.



(** The change of the [store_settings] table of a store. *)
Definition set_storeSettings (s : gmap Z StoreSettings.t) (db : Db) : Db :=
  {| users := users db; products := products db; receipts := receipts db;
     transactions := transactions db;
     transactionItems := transactionItems db; productLogs := productLogs db;
     storeSettings := s; sqlite_sequence := sqlite_sequence db |}.

(** Negative stock is allowed by some row of [store_settings]. *)
Definition allowsNegativeStock (db : Db) : bool :=
  map_fold (fun _ row acc => StoreSettings.allowNegativeStock row || acc)
           false (storeSettings db).

(** ** The pricing stage on doubles

    What [computeReceiptTotals] and the loop of [createReceiptWithItems]
    compute on the numbers of the source, IEEE 754 binary64: the operations
    round, overflow to an infinity and propagate [NaN].  Of a product row
    the columns the pricing stage reads are kept. *)

From Stdlib Require PrimFloat.

Module Double.
Import PrimFloat.

Module Product.
Record t : Type := mk
  { productName : string; quantity : float; mrp : float; gst : float }.
End Product.

(** [x || 0]: the falsy numbers are the two zeros and [NaN]. *)
Definition orZero (x : float) : float :=
  if (is_nan x || is_zero x)%bool then 0%float else x.

(** [Math.max(x, y)] and [Math.min(x, y)]: [NaN] when an argument is
    [NaN]; [+0] is larger than [-0]. *)
Definition Math_max (x y : float) : float :=
  if (is_nan x || is_nan y)%bool then nan
  else if ltb x y then y
  else if ltb y x then x
  else match classify x with FloatClass.NZero => y | _ => x end.

Definition Math_min (x y : float) : float :=
  if (is_nan x || is_nan y)%bool then nan
  else if ltb x y then x
  else if ltb y x then y
  else match classify x with FloatClass.PZero => y | _ => x end.

Record Item : Type := mkItem { productId : Z; qty : float }.

Record Line : Type := mkLine
  { product_id : Z; product : Product.t;
    line_qty : float; lineGross : float; lineTax : float }.

Definition priceLine (products : gmap Z Product.t) (it : Item) : Result Line :=
  match products !! productId it with
  | None => Err (ProductNotFound (productId it))
  | Some p =>
      let qty := qty it in
      if leb qty 0 then Err InvalidQuantity
      else if ltb (Product.quantity p) qty
      then Err (InsufficientStock (Product.productName p))
      else
        let lineGross := (Product.mrp p * qty)%float in
        let lineTax := (lineGross * orZero (Product.gst p) / 100)%float in
        Ok {| product_id := productId it; product := p;
              line_qty := qty; lineGross := lineGross; lineTax := lineTax |}
  end.

(** [rows.reduce((acc, r) => acc + f(r), 0)] *)
Definition reduce_sum {A : Type} (f : A -> float) (rows : list A) : float :=
  fold_left (fun acc r => (acc + f r)%float) rows 0%float.

Record Totals : Type := mkTotals
  { rows : list Line; subtotal : float; tax : float; discount : float;
    total : float }.

Definition computeReceiptTotals (products : gmap Z Product.t)
    (items : list Item) (discount : float) : Result Totals :=
  match mapM (priceLine products) items with
  | Err e => Err e
  | Ok rows =>
      let subtotal := reduce_sum lineGross rows in
      let tax := reduce_sum lineTax rows in
      let discount := Math_max 0 (Math_min (orZero discount) subtotal) in
      let total := Math_max 0 (subtotal - discount + tax)%float in
      Ok {| rows := rows; subtotal := subtotal; tax := tax;
            discount := discount; total := total |}
  end.

(** The discount the loop of [createReceiptWithItems] writes on the line
    item and the log entry of a line. *)
Definition lineDiscount (subtotal discount : float) (r : Line) : float :=
  if ltb 0 subtotal then (discount * lineGross r / subtotal)%float
  else 0%float.

Definition lineDiscounts (t : Totals) : list float :=
  map (lineDiscount (subtotal t) (discount t)) (rows t).

(** Decimal literals stand for the nearest double, as they do in the
    source. *)
#[local] Set Warnings "-inexact-float".



(** Three products priced 0.1, 0.2 and 0.3, no tax. *)
Definition grocery : gmap Z Product.t :=
  <[1 := {| Product.productName := "Salt"%string;
            Product.quantity := 10%float; Product.mrp := 0.1%float;
            Product.gst := 0%float |}]>
    (<[2 := {| Product.productName := "Sugar"%string;
               Product.quantity := 10%float; Product.mrp := 0.2%float;
               Product.gst := 0%float |}]>
       (<[3 := {| Product.productName := "Flour"%string;
                  Product.quantity := 10%float; Product.mrp := 0.3%float;
                  Product.gst := 0%float |}]> ∅)).


Definition half : float := 0.5%float.

Definition one_of_each : list Item :=
  [ mkItem 1 1%float; mkItem 2 1%float; mkItem 3 1%float ].

End Double.

(** * More of the handlers *)

From Stdlib Require Import Ascii.

(** ** [escapeHtml] *)

(** [s.replaceAll(c, by)] for a pattern [c] of one character. *)
Fixpoint replaceAll (c : ascii) (by_ : string) (s : string) : string :=
  match s with
  | EmptyString => EmptyString
  | String a s' =>
      if Ascii.eqb a c then (by_ ++ replaceAll c by_ s')%string
      else String a (replaceAll c by_ s')
  end.

(** The double quote, character 34. *)
Definition dquote : ascii := "034"%char.

Definition escapeHtml (s : string) : string :=
  replaceAll "'"%char "&#39;"
    (replaceAll dquote "&quot;"
       (replaceAll ">"%char "&gt;"
          (replaceAll "<"%char "&lt;"
             (replaceAll "&"%char "&amp;" s)))).

(** What one character of the input becomes. *)
Definition escapeChar (c : ascii) : string :=
  if Ascii.eqb c "&" then "&amp;"%string
  else if Ascii.eqb c "<" then "&lt;"%string
  else if Ascii.eqb c ">" then "&gt;"%string
  else if Ascii.eqb c dquote then "&quot;"%string
  else if Ascii.eqb c "'" then "&#39;"%string
  else String c EmptyString.

(** The characters [escapeHtml] rewrites. *)
Definition html_special (c : ascii) : Prop :=
  c = "&"%char \/ c = "<"%char \/ c = ">"%char \/ c = dquote \/ c = "'"%char.

(** [c] occurs in [s]. *)
Definition occurs (c : ascii) (s : string) : Prop :=
  In c (list_ascii_of_string s).

(** ** Handlers that run outside a unit of work *)

(** What a handler answers: [ok(data)] or [fail(e)]. *)
Inductive Reply (A : Type) : Type :=
| Replied (data : A)
| Failed (e : Error).
Arguments Replied {A} data.
Arguments Failed {A} e.

(** A handler's [try { ... } catch (e) { return fail(e) }] around statements
    that are not in a transaction: what was written before the throw
    stays written. *)
Definition handle {A : Type} (body : Tx A) (db : Db) : Db * Reply A :=
  match body (db, O) with
  | ((db', _), Ok a) => (db', Replied a)
  | ((db', _), Err e) => (db', Failed e)
  end.

(** *** [receipts:add] *)

Record ReceiptsAddArgs : Type := mkReceiptsAddArgs
  { add_totalAmount : Q; add_tax : Q; add_paymentSplit : Json;
    add_discount : option Q; add_receiptDate : option Z; add_createdBy : Z }.

(** [INSERT INTO receipts] without an id: the row id is assigned by
    [AUTOINCREMENT]; [created_by] references [users(id)]. *)
Definition insert_receipts_auto (v : Receipt.t) (db : Db) : Result (Db * Z) :=
  if is_present (users db) (Receipt.createdBy v) then
    let id := next_rowid (seq_receipts (sqlite_sequence db))
                         (max_key (receipts db)) in
    Ok ({| users := users db; products := products db;
           receipts := <[id := v]> (receipts db);
           transactions := transactions db;
           transactionItems := transactionItems db;
           productLogs := productLogs db;
           storeSettings := storeSettings db;
           sqlite_sequence :=
             {| seq_transactions := seq_transactions (sqlite_sequence db);
                seq_receipts := id;
                seq_transaction_items :=
                  seq_transaction_items (sqlite_sequence db);
                seq_product_logs := seq_product_logs (sqlite_sequence db) |}
        |}, id)
  else Err ForeignKeyConstraint.

(** The handler answers [ok({ receiptId })]. *)
Definition receipts_add (env : Env) (args : ReceiptsAddArgs) (db : Db)
  : Db * Reply Z :=
  handle
    (receiptDate <- match add_receiptDate args with
                    | Some d => ret d
                    | None => newDate env
                    end ;;
     run env (insert_receipts_auto
                {| Receipt.totalAmount := add_totalAmount args;
                   Receipt.tax := add_tax args;
                   Receipt.paymentSplit := add_paymentSplit args;
                   Receipt.discount := default 0%Q (add_discount args);
                   Receipt.receiptDate := receiptDate;
                   Receipt.createdBy := add_createdBy args |}))
    db.

(** *** [receipts:delete] *)

(** The log entry [row] references receipt [id]. *)
Definition logs_receipt (id : Z) (row : Z * ProductLog.t) : bool :=
  bool_decide (ProductLog.receiptId (snd row) = Some id).

(** [DELETE FROM receipts WHERE id = id]: refused when the row exists and a
    row of [product_logs] references it.  A delete returns no row id. *)
Definition delete_receipts (id : Z) (db : Db) : Result (Db * Z) :=
  if is_present (receipts db) id
     && existsb (logs_receipt id) (productLogs db)
  then Err ForeignKeyConstraint
  else
    Ok ({| users := users db; products := products db;
           receipts := delete id (receipts db);
           transactions := transactions db;
           transactionItems := transactionItems db;
           productLogs := productLogs db;
           storeSettings := storeSettings db;
           sqlite_sequence := sqlite_sequence db |}, 0).

Definition receipts_delete (env : Env) (id : Z) (db : Db) : Db * Reply unit :=
  handle (_ <- run env (delete_receipts id) ;; ret tt) db.

(** *** [logs:getReceiptLogs] *)

Definition logs_getReceiptLogs (receiptId : Z) (db : Db)
  : list (Z * ProductLog.t) :=
  List.filter (logs_receipt receiptId) (productLogs db).

(** *** [products:delete] *)

(** The row of [product_logs] is about product [id]. *)
Definition log_of_product (id : Z) (row : Z * ProductLog.t) : bool :=
  Z.eqb (ProductLog.productId (snd row)) id.

(** The row of [transaction_items] is about product [id]. *)
Definition item_of_product (id : Z) (row : Z * TransactionItem.t) : bool :=
  Z.eqb (TransactionItem.productId (snd row)) id.

(** [DELETE FROM product_logs WHERE product_id = id] *)
Definition delete_productLogs_of (id : Z) (db : Db) : Result (Db * Z) :=
  Ok ({| users := users db; products := products db;
         receipts := receipts db; transactions := transactions db;
         transactionItems := transactionItems db;
         productLogs := List.filter (fun row => negb (log_of_product id row))
                                    (productLogs db);
         storeSettings := storeSettings db;
         sqlite_sequence := sqlite_sequence db |}, 0).

(** [DELETE FROM transaction_items WHERE product_id = id] *)
Definition delete_transactionItems_of (id : Z) (db : Db) : Result (Db * Z) :=
  Ok ({| users := users db; products := products db;
         receipts := receipts db; transactions := transactions db;
         transactionItems :=
           List.filter (fun row => negb (item_of_product id row))
                       (transactionItems db);
         productLogs := productLogs db;
         storeSettings := storeSettings db;
         sqlite_sequence := sqlite_sequence db |}, 0).

(** [DELETE FROM products WHERE id = id]: refused when the row exists and a
    row of [transaction_items] or of [product_logs] references it. *)
Definition delete_products (id : Z) (db : Db) : Result (Db * Z) :=
  if is_present (products db) id
     && (existsb (item_of_product id) (transactionItems db)
         || existsb (log_of_product id) (productLogs db))
  then Err ForeignKeyConstraint
  else
    Ok ({| users := users db;
           products := delete id (products db);
           receipts := receipts db; transactions := transactions db;
           transactionItems := transactionItems db;
           productLogs := productLogs db;
           storeSettings := storeSettings db;
           sqlite_sequence := sqlite_sequence db |}, 0).

(** Remove dependent rows first (so FK constraints don't block deletion). *)
Definition products_delete (env : Env) (id : Z) (db : Db) : Db * Reply unit :=
  handle
    (_ <- run env (delete_productLogs_of id) ;;
     _ <- run env (delete_transactionItems_of id) ;;
     _ <- run env (delete_products id) ;;
     ret tt)
    db.

(** ** Vocabulary of the further properties *)

(** Every reference between rows of the ledger points at a row. *)
Record consistent (db : Db) : Prop := mkConsistent
  { fk_receipts :
      forall id r, receipts db !! id = Some r ->
                   is_Some (users db !! Receipt.createdBy r);
    fk_transactions :
      forall id t, transactions db !! id = Some t ->
                   is_Some (users db !! Transaction.createdBy t);
    fk_transactionItems :
      Forall (fun row =>
                is_Some (transactions db
                           !! TransactionItem.transactionId (snd row)) /\
                is_Some (products db !! TransactionItem.productId (snd row)))
             (transactionItems db);
    fk_productLogs :
      Forall (fun row =>
                is_Some (products db !! ProductLog.productId (snd row)) /\
                forall rid, ProductLog.receiptId (snd row) = Some rid ->
                            is_Some (receipts db !! rid))
             (productLogs db);
    fk_storeSettings :
      forall id s u, storeSettings db !! id = Some s ->
                     StoreSettings.userId s = Some u ->
                     is_Some (users db !! u) }.

(** The next id of [receipts] is the next id of [transactions]. *)
Definition in_step (db : Db) : Prop :=
  next_rowid (seq_receipts (sqlite_sequence db)) (max_key (receipts db))
  = next_transaction_id db.

(** The change of the payment split of a call. *)
Definition set_paymentSplit (split : PaymentSplit) (args : CheckoutArgs)
  : CheckoutArgs :=
  {| createdBy := createdBy args; receiptDate := receiptDate args;
     discountRequested := discountRequested args; paymentSplit := split;
     items := items args |}.

(** The [sqlite_sequence] entries of [transactions] and [receipts] of [db]
    are those of [s]. *)
Definition same_ledger_sequences (s : Sequences) (db : Db) : Prop :=
  seq_transactions (sqlite_sequence db) = seq_transactions s /\
  seq_receipts (sqlite_sequence db) = seq_receipts s.

(** The second statement of a handler fails. *)
Definition second_fails : Env :=
  {| io_fault := fun n => Nat.eqb n 1; clock := fun n => 2000 + Z.of_nat n |}.

(** ** Handlers with checks of their own *)

(** The errors the handlers raise themselves. *)
Inductive HandlerError : Type :=
| CurrentUserNotFound   (* "Current user not found" *)
| AccessDenied          (* "Access denied (admin only)" *)
| UserNotFound          (* "User not found" *)
| WrongPassword.        (* "Current password is incorrect" *)

(** What such a handler answers: [ok(data)], [fail] with an error of its
    own, or [fail] with an error of the store. *)
Inductive Answer (A : Type) : Type :=
| Done (data : A)
| Refused (e : HandlerError)
| Broke (e : Error).
Arguments Done {A} data.
Arguments Refused {A} e.
Arguments Broke {A} e.

(** *** [assertAdmin] *)

Definition assertAdmin (currentUserId : Z) (db : Db) : HandlerError + User.t :=
  match users db !! currentUserId with
  | None => inl CurrentUserNotFound
  | Some u =>
      if String.eqb (User.role u) "admin" then inr u else inl AccessDenied
  end.

(** *** [settings:getAll] and [settings:setMany]

    The [settings] table maps a key to a value and the time of its last
    update.  [values] holds the entries of the object [args.values] in the
    order [Object.entries] lists them. *)

(** What a column of mode [timestamp] keeps of a date: the whole seconds
    of its epoch milliseconds. *)
Definition timestamp (date : Z) : Z := date / 1000.

Module Setting.
Record t : Type := mk { value : string; updatedAt : Z }.
End Setting.

(** [INSERT ... ON CONFLICT (key) DO UPDATE SET value, updated_at] *)
Definition upsert_setting (now : Z) (key value : string)
    (settings : gmap string Setting.t) : gmap string Setting.t :=
  <[key := {| Setting.value := value;
              Setting.updatedAt := timestamp now |}]> settings.

(** The loop over the entries, one statement for each, not in a
    transaction: a statement that throws ends the loop and leaves the
    entries before it written.  [n] counts the statements run. *)
Fixpoint upsert_entries (env : Env) (now : Z) (n : nat)
    (entries : list (string * string)) (settings : gmap string Setting.t)
  : gmap string Setting.t * Result unit :=
  match entries with
  | [] => (settings, Ok tt)
  | (key, value) :: entries' =>
      if io_fault env n then (settings, Err IoError)
      else upsert_entries env now (S n) entries'
             (upsert_setting now key value settings)
  end.

Definition settings_setMany (env : Env) (currentUserId : Z)
    (values : list (string * string)) (db : Db)
    (settings : gmap string Setting.t)
  : gmap string Setting.t * Answer unit :=
  match assertAdmin currentUserId db with
  | inl e => (settings, Refused e)
  | inr _ =>
      let now := clock env O in
      match upsert_entries env now O values settings with
      | (settings', Ok _) => (settings', Done tt)
      | (settings', Err e) => (settings', Broke e)
      end
  end.

(** [map[r.key] = r.value] for every row, on an object literal: the key
    ["__proto__"] names the accessor of [Object.prototype], whose setter
    ignores a string, so that row makes no entry. *)
Definition settings_getAll (settings : gmap string Setting.t)
  : gmap string string :=
  Setting.value <$> delete "__proto__"%string settings.

(** *** [storeSettings:upsert]

    Of the patch, the columns of the row model are kept: [userId] and
    [allowNegativeStock]. *)

Record StoreSettingsArgs : Type := mkStoreSettingsArgs
  { ss_userId : Z; ss_allowNegativeStock : option bool }.

Definition storeSettings_patch (args : StoreSettingsArgs) : StoreSettings.t :=
  {| StoreSettings.userId := Some (ss_userId args);
     StoreSettings.allowNegativeStock :=
       default false (ss_allowNegativeStock args) |}.

(** The row is the settings of user [u]. *)
Definition settings_of (u : Z) (row : StoreSettings.t) : bool :=
  bool_decide (StoreSettings.userId row = Some u).

(** [db.select().from(storeSettings).where(eq(userId, u)).get()] finds a
    row. *)
Definition has_storeSettings (u : Z) (db : Db) : bool :=
  bool_decide (map_Exists (fun _ row => settings_of u row = true)
                          (storeSettings db)).

Definition set_storeSettings_table (s : gmap Z StoreSettings.t) (db : Db) : Db :=
  {| users := users db; products := products db; receipts := receipts db;
     transactions := transactions db;
     transactionItems := transactionItems db; productLogs := productLogs db;
     storeSettings := s; sqlite_sequence := sqlite_sequence db |}.

(** [INSERT INTO store_settings]: [user_id] references [users(id)]; [seq]
    is the table's [sqlite_sequence] entry. *)
Definition insert_storeSettings (seq : Z) (v : StoreSettings.t) (db : Db)
  : Result (Db * Z) :=
  if match StoreSettings.userId v with
     | Some u => is_present (users db) u
     | None => true
     end
  then
    let id := next_rowid seq (max_key (storeSettings db)) in
    Ok (set_storeSettings_table (<[id := v]> (storeSettings db)) db, id)
  else Err ForeignKeyConstraint.

(** [UPDATE store_settings SET ... WHERE user_id = u]: the rows it
    rewrites must reference a user. *)
Definition update_storeSettings (u : Z) (v : StoreSettings.t) (db : Db)
  : Result (Db * Z) :=
  if has_storeSettings u db
     && negb match StoreSettings.userId v with
             | Some u' => is_present (users db) u'
             | None => true
             end
  then Err ForeignKeyConstraint
  else
    Ok (set_storeSettings_table
          ((fun row => if settings_of u row then v else row)
             <$> storeSettings db) db, 0).

Definition storeSettings_upsert (env : Env) (seq : Z) (args : StoreSettingsArgs)
    (db : Db) : Db * Reply unit :=
  handle
    (existing <- readDb (fun d => Ok (has_storeSettings (ss_userId args) d)) ;;
     _ <- (if negb existing
           then run env (insert_storeSettings seq (storeSettings_patch args))
           else run env (update_storeSettings (ss_userId args)
                           (storeSettings_patch args))) ;;
     ret tt)
    db.

(** *** [auth:change-password]

    [bcrypt.hash] and [bcrypt.compare] are parameters; [salt] stands for
    the randomness of a call of [bcrypt.hash]. *)

Definition set_users (us : gmap Z User.t) (db : Db) : Db :=
  {| users := us; products := products db; receipts := receipts db;
     transactions := transactions db;
     transactionItems := transactionItems db; productLogs := productLogs db;
     storeSettings := storeSettings db; sqlite_sequence := sqlite_sequence db |}.

Definition set_password (pw : string) (u : User.t) : User.t :=
  {| User.name := User.name u; User.password := pw; User.role := User.role u;
     User.active := User.active u; User.createdAt := User.createdAt u |}.

(** [UPDATE users SET password = pw WHERE id = id] *)
Definition update_users_password (id : Z) (pw : string) (db : Db)
  : Result (Db * Z) :=
  Ok (set_users (alter (set_password pw) id (users db)) db, 0).

Definition auth_change_password
    (bcrypt_hash : string -> nat -> string)
    (bcrypt_compare : string -> string -> bool)
    (env : Env) (salt : nat) (currentUserId : Z) (password : string) (db : Db)
  : Db * Answer unit :=
  match users db !! currentUserId with
  | None => (db, Refused UserNotFound)
  | Some existingUser =>
      if negb (bcrypt_compare password (User.password existingUser))
      then (db, Refused WrongPassword)
      else
        let hashedPassword := bcrypt_hash password salt in
        match run env (update_users_password currentUserId hashedPassword)
                  (db, O) with
        | ((db', _), Ok _) => (db', Done tt)
        | ((db', _), Err e) => (db', Broke e)
        end
  end.

(** *** [users:delete]

    Five tables hold rows that reference a user: [receipts],
    [transactions], [store_settings], and [user_settings] and
    [notifications], of whose rows only the [user_id] is kept here. *)

Record UserRows : Type := mkUserRows
  { userSettings : list Z; notifications : list Z }.

Definition references_user (id : Z) (db : Db) (side : UserRows) : bool :=
  bool_decide (map_Exists (fun _ r => Receipt.createdBy r = id) (receipts db))
  || bool_decide (map_Exists (fun _ t => Transaction.createdBy t = id)
                             (transactions db))
  || has_storeSettings id db
  || existsb (fun u => Z.eqb u id) (userSettings side)
  || existsb (fun u => Z.eqb u id) (notifications side).

(** The four statements of the handler, in its order: a statement that
    throws ends the handler and leaves what the statements before it
    wrote.  [DELETE FROM users] is refused when a row references the
    user. *)
Definition users_delete (env : Env) (currentUserId id : Z) (db : Db)
    (side : UserRows) : (Db * UserRows) * Answer unit :=
  match assertAdmin currentUserId db with
  | inl e => ((db, side), Refused e)
  | inr _ =>
      if io_fault env 0 then ((db, side), Broke IoError)
      else if is_present (users db) id && references_user id db side
      then ((db, side), Broke ForeignKeyConstraint)
      else
        let db1 := set_users (delete id (users db)) db in
        if io_fault env 1 then ((db1, side), Broke IoError)
        else
          let side1 :=
            {| userSettings :=
                 List.filter (fun u => negb (Z.eqb u id)) (userSettings side);
               notifications := notifications side |} in
          if io_fault env 2 then ((db1, side1), Broke IoError)
          else
            let db2 :=
              set_storeSettings_table
                (filter (fun kv => settings_of id (snd kv) = false)
                        (storeSettings db1)) db1 in
            if io_fault env 3 then ((db2, side1), Broke IoError)
            else
              let side2 :=
                {| userSettings := userSettings side1;
                   notifications :=
                     List.filter (fun u => negb (Z.eqb u id))
                                 (notifications side1) |} in
              ((db2, side2), Done tt)
  end.

(** ** The computation of [reports:todayDashboard]

    on the rows its two queries return: the receipts of the day and the
    log entries of the day. *)

(** A [Map<number, number>]: its entries in insertion order. *)
Fixpoint jsmap_get (k : Z) (m : list (Z * Q)) : option Q :=
  match m with
  | [] => None
  | (k', v) :: m' => if Z.eqb k' k then Some v else jsmap_get k m'
  end.

Fixpoint jsmap_set (k : Z) (v : Q) (m : list (Z * Q)) : list (Z * Q) :=
  match m with
  | [] => [(k, v)]
  | (k', v') :: m' =>
      if Z.eqb k' k then (k, v) :: m' else (k', v') :: jsmap_set k v m'
  end.

Definition dashboard_totalSales (todayReceipts : list Receipt.t) : Q :=
  fold_left (fun acc r => (acc + orZero (Receipt.totalAmount r))%Q)
            todayReceipts 0%Q.

Definition dashboard_avgTransactionValue (todayReceipts : list Receipt.t) : Q :=
  let transactionCount := length todayReceipts in
  if (0 <? transactionCount)%nat
  then (dashboard_totalSales todayReceipts
        / inject_Z (Z.of_nat transactionCount))%Q
  else 0%Q.

Definition dashboard_byProduct (logs : list ProductLog.t) : list (Z * Q) :=
  fold_left
    (fun byProduct l =>
       if negb (String.eqb (ProductLog.type l) "sale") then byProduct
       else jsmap_set (ProductLog.productId l)
              (default 0%Q (jsmap_get (ProductLog.productId l) byProduct)
               + orZero (ProductLog.quantity l))%Q
              byProduct)
    logs [].

Definition dashboard_topSellingProduct (byProduct : list (Z * Q))
  : option (Z * Q) :=
  fold_left
    (fun top entry =>
       match top with
       | None => Some entry
       | Some (_, topQty) =>
           if Qltb topQty (snd entry) then Some entry else top
       end)
    byProduct None.

(** The sale entries of product [pid] among [logs], and their quantity. *)
Definition is_sale_of (pid : Z) (l : ProductLog.t) : bool :=
  String.eqb (ProductLog.type l) "sale" && Z.eqb (ProductLog.productId l) pid.

Definition sold_today (pid : Z) (logs : list ProductLog.t) : Q :=
  fold_left (fun acc l => (acc + orZero (ProductLog.quantity l))%Q)
            (List.filter (is_sale_of pid) logs) 0%Q.

(** No key occurs twice among the entries. *)
Fixpoint keys_once (m : list (Z * Q)) : Prop :=
  match m with
  | [] => True
  | (k, _) :: m' => jsmap_get k m' = None /\ keys_once m'
  end.

(** ** More sample data *)

(** A stand-in for bcrypt: the hash is the password behind one character
    of salt. *)
Definition toy_hash (p : string) (salt : nat) : string :=
  String (ascii_of_nat salt) p.

Definition toy_compare (p h : string) : bool :=
  match h with
  | String _ p' => String.eqb p' p
  | EmptyString => false
  end.

(** The sample store with a third user: an admin whose account is
    disabled and whose password is "secret". *)
Definition office : Db :=
  set_users
    (<[3 := {| User.name := "owner"%string;
               User.password := toy_hash "secret" 7;
               User.role := "admin"%string; User.active := false;
               User.createdAt := 0 |}]> (users shop))
    shop.

Definition sale_log (pid : Z) (qty : Q) : ProductLog.t :=
  {| ProductLog.productId := pid; ProductLog.receiptId := None;
     ProductLog.type := "sale"%string; ProductLog.quantity := qty;
     ProductLog.amount := 0; ProductLog.tax := 0; ProductLog.discount := 0;
     ProductLog.datetime := 0 |}.

Definition restock_log (pid : Z) (qty : Q) : ProductLog.t :=
  {| ProductLog.productId := pid; ProductLog.receiptId := None;
     ProductLog.type := "restock"%string; ProductLog.quantity := qty;
     ProductLog.amount := 0; ProductLog.tax := 0; ProductLog.discount := 0;
     ProductLog.datetime := 0 |}.

(** Rice sold twice, oil once, and a delivery of oil. *)
Definition logs_of_a_day : list (ProductLog.t) :=
  [ sale_log 1 2; sale_log 2 3; restock_log 2 50; sale_log 1 (3 # 2) ].

(** * Properties *)

(** ** Numbers *)

Lemma orZero_Qeq (x : Q) : (orZero x == x)%Q.
Proof.
  unfold orZero. destruct (Qeq_bool x 0) eqn:E; [|reflexivity].
  apply Qeq_bool_iff in E. symmetry. exact E.
Qed.

Lemma Qltb_lt (x y : Q) : Qltb x y = true <-> (x < y)%Q.
Proof.
  unfold Qltb. rewrite negb_true_iff. split.
  - intros E. apply Qnot_le_lt. intros H. apply Qle_bool_iff in H. congruence.
  - intros H. destruct (Qle_bool y x) eqn:E; [|reflexivity].
    apply Qle_bool_iff in E. exfalso. exact (Qlt_not_le _ _ H E).
Qed.

Lemma Qltb_ge (x y : Q) : Qltb x y = false <-> (y <= x)%Q.
Proof.
  unfold Qltb. rewrite negb_false_iff. apply Qle_bool_iff.
Qed.

Lemma fold_sum_shift {A : Type} (f : A -> Q) (l : list A) (a : Q) :
  (fold_left (fun acc r => acc + f r) l a == a + reduce_sum f l)%Q.
Proof.
  unfold reduce_sum. revert a.
  induction l as [|x l IH]; intros a; simpl.
  - ring.
  - rewrite (IH (a + f x)%Q), (IH (0 + f x)%Q). ring.
Qed.

Lemma reduce_sum_cons {A : Type} (f : A -> Q) (x : A) (l : list A) :
  (reduce_sum f (x :: l) == f x + reduce_sum f l)%Q.
Proof.
  unfold reduce_sum at 1. simpl. rewrite fold_sum_shift. ring.
Qed.

(** The sum of the lines' shares, each [c * f r / s], is [c * (sum f) / s]. *)
Lemma reduce_sum_scale {A : Type} (f : A -> Q) (c s : Q) (l : list A) :
  ~ (s == 0)%Q ->
  (reduce_sum (fun r => c * f r / s) l == c * reduce_sum f l / s)%Q.
Proof.
  intros Hs. induction l as [|x l IH].
  - unfold reduce_sum. simpl. field. exact Hs.
  - rewrite !reduce_sum_cons, IH. field. exact Hs.
Qed.

Lemma reduce_sum_zero {A : Type} (l : list A) :
  (reduce_sum (fun _ : A => 0) l == 0)%Q.
Proof.
  induction l as [|x l IH].
  - reflexivity.
  - rewrite reduce_sum_cons, IH. ring.
Qed.

Lemma reduce_sum_map {A B : Type} (g : A -> B) (f : B -> Q) (l : list A) :
  reduce_sum f (map g l) = reduce_sum (fun a => f (g a)) l.
Proof.
  unfold reduce_sum. generalize 0%Q.
  induction l as [|x l IH]; intros a; simpl; [reflexivity | apply IH].
Qed.

(** ** Row ids *)

Lemma max_key_ge {A : Type} (m : gmap Z A) (k : Z) (v : A) :
  m !! k = Some v -> k <= max_key m.
Proof.
  unfold max_key. revert k v.
  apply (map_fold_weak_ind
           (fun r (m : gmap Z A) => forall k v, m !! k = Some v -> k <= r)).
  - intros k v. rewrite lookup_empty. discriminate.
  - intros i x m' r _ IH k v. rewrite lookup_insert.
    case_decide as E.
    + subst. lia.
    + intros H. specialize (IH k v H). lia.
Qed.

(** The id [AUTOINCREMENT] assigns is not in use. *)
Lemma next_rowid_fresh {A : Type} (m : gmap Z A) (seq : Z) :
  m !! next_rowid seq (max_key m) = None.
Proof.
  destruct (m !! next_rowid seq (max_key m)) eqn:E; [|reflexivity].
  apply max_key_ge in E. unfold next_rowid in E. lia.
Qed.

Lemma is_present_true {A : Type} (m : gmap Z A) (k : Z) :
  is_present m k = true <-> is_Some (m !! k).
Proof.
  unfold is_present. destruct (m !! k); split; intros H;
    try reflexivity; try discriminate; eauto.
  destruct H as [? H]. discriminate.
Qed.

Lemma is_present_false {A : Type} (m : gmap Z A) (k : Z) :
  is_present m k = false <-> m !! k = None.
Proof.
  unfold is_present. destruct (m !! k); split; intros H;
    try reflexivity; discriminate.
Qed.

(** ** The pricing stage *)

Lemma mapM_ok {A B : Type} (f : A -> Result B) (xs : list A) (ys : list B) :
  mapM f xs = Ok ys -> Forall2 (fun x y => f x = Ok y) xs ys.
Proof.
  revert ys. induction xs as [|x xs IH]; intros ys H; simpl in H.
  - injection H as <-. constructor.
  - destruct (f x) as [y|e] eqn:Ex; [|discriminate].
    destruct (mapM f xs) as [ys'|e]; [|discriminate].
    injection H as <-. constructor; [exact Ex | apply IH; reflexivity].
Qed.

Lemma mapM_app_err {A B : Type} (f : A -> Result B) (pre post : list A)
    (x : A) (ys : list B) (e : Error) :
  mapM f pre = Ok ys -> f x = Err e -> mapM f (pre ++ x :: post) = Err e.
Proof.
  revert ys. induction pre as [|a pre IH]; intros ys Hpre Hx; simpl in *.
  - rewrite Hx. reflexivity.
  - destruct (f a) as [y|e']; [|discriminate].
    destruct (mapM f pre) as [ys'|e'] eqn:E; [|discriminate].
    rewrite (IH ys' eq_refl Hx). reflexivity.
Qed.


Lemma priceLine_ok (db : Db) (it : Item) (r : Line) :
  priceLine db it = Ok r ->
  products db !! productId it = Some (product r) /\
  product_id r = productId it /\
  line_qty r = qty it /\
  (0 < qty it)%Q /\
  (qty it <= Product.quantity (product r))%Q /\
  lineGross r = (Product.mrp (product r) * qty it)%Q /\
  lineTax r = (lineGross r * orZero (Product.gst (product r)) / 100)%Q.
Proof.
  unfold priceLine. destruct (products db !! productId it) as [p|]; [|discriminate].
  destruct (Qle_bool (qty it) 0) eqn:Eq; [discriminate|].
  destruct (Qltb (Product.quantity p) (qty it)) eqn:Es; [discriminate|].
  intros [= <-]. simpl. repeat split.
  - apply Qnot_le_lt. intros H. apply Qle_bool_iff in H. congruence.
  - apply Qltb_ge. exact Es.
Qed.

(** ** Statements and the unit of work *)

Lemma run_ok (env : Env) (stmt : Db -> Result (Db * Z)) (db : Db) (n : nat)
    (st' : TxState) (a : Z) :
  run env stmt (db, n) = (st', Ok a) ->
  io_fault env n = false /\
  exists db', stmt db = Ok (db', a) /\ st' = (db', S n).
Proof.
  unfold run. destruct (io_fault env n); [discriminate|].
  destruct (stmt db) as [[db1 id]|e]; [|discriminate].
  intros [= <- <-]. split; [reflexivity|]. exists db1. split; reflexivity.
Qed.

Lemma run_no_fault (env : Env) (stmt : Db -> Result (Db * Z)) (db db' : Db)
    (n : nat) (a : Z) :
  io_fault env n = false -> stmt db = Ok (db', a) ->
  run env stmt (db, n) = ((db', S n), Ok a).
Proof.
  intros Hf Hs. unfold run. rewrite Hf, Hs. reflexivity.
Qed.

Lemma same_ledger_refl (db : Db) : same_ledger db db.
Proof. repeat split. Qed.

Lemma same_ledger_trans (db1 db2 db3 : Db) :
  same_ledger db1 db2 -> same_ledger db2 db3 -> same_ledger db1 db3.
Proof.
  intros (A1 & A2 & A3 & A4) (B1 & B2 & B3 & B4).
  repeat split; congruence.
Qed.

Lemma insert_transactionItems_ok (v : TransactionItem.t) (db db' : Db) (id : Z) :
  insert_transactionItems v db = Ok (db', id) ->
  same_ledger db db' /\ products db' = products db /\
  productLogs db' = productLogs db /\
  transactionItems db' = transactionItems db ++ [(id, v)].
Proof.
  unfold insert_transactionItems.
  destruct (_ && _); [|discriminate].
  intros [= <- <-]. repeat split.
Qed.

Lemma insert_productLogs_ok (v : ProductLog.t) (db db' : Db) (id : Z) :
  insert_productLogs v db = Ok (db', id) ->
  same_ledger db db' /\ products db' = products db /\
  transactionItems db' = transactionItems db /\
  productLogs db' = productLogs db ++ [(id, v)].
Proof.
  unfold insert_productLogs.
  destruct (_ && _); [|discriminate].
  intros [= <- <-]. repeat split.
Qed.

Lemma persistLine_ok (env : Env) (tid rd : Z) (sub disc : Q) (r : Line)
    (db db' : Db) (n n' : nat) (u : unit) :
  persistLine env tid rd sub disc r (db, n) = ((db', n'), Ok u) ->
  n' = (n + 3)%nat /\ no_fault env n (n + 3) /\ same_ledger db db' /\
  (exists id, transactionItems db' =
              transactionItems db ++ [(id, mkTransactionItem tid sub disc r)]) /\
  (exists id, productLogs db' =
              productLogs db ++ [(id, mkProductLog tid rd sub disc r)]) /\
  products db' =
    alter (Product.set_stock (Product.quantity (product r) - line_qty r)%Q
                             (clock env (n + 2)%nat))
          (product_id r) (products db).
Proof.
  unfold persistLine, bind.
  destruct (run env (insert_transactionItems _) (db, n))
    as [st1 [id1|e1]] eqn:E1; [|discriminate].
  apply run_ok in E1 as (F1 & db1 & S1 & ->).
  destruct (run env (insert_productLogs _) (db1, S n))
    as [st2 [id2|e2]] eqn:E2; [|discriminate].
  apply run_ok in E2 as (F2 & db2 & S2 & ->).
  unfold newDate.
  destruct (run env (update_products _ _ _) (db2, S (S n)))
    as [st3 [id3|e3]] eqn:E3; [|discriminate].
  apply run_ok in E3 as (F3 & db3 & S3 & ->).
  unfold ret. intros [= <- <-].
  apply insert_transactionItems_ok in S1 as (L1 & P1 & G1 & I1).
  apply insert_productLogs_ok in S2 as (L2 & P2 & I2 & G2).
  unfold update_products in S3. injection S3 as <- _. simpl.
  split; [lia|].
  split.
  { intros k Hk.
    assert (k = n \/ k = S n \/ k = S (S n)) as [->|[->| ->]] by lia;
      assumption. }
  split; [exact (same_ledger_trans _ _ _ L1 L2)|].
  split; [exists id1; congruence|].
  split; [exists id2; congruence|].
  replace (n + 2)%nat with (S (S n)) by lia. congruence.
Qed.

Lemma set_stock_twice (q1 q2 : Q) (t1 t2 : Z) (o : option Product.t) :
  Product.set_stock q2 t2 <$> (Product.set_stock q1 t1 <$> o) =
  Product.set_stock q2 t2 <$> o.
Proof. destruct o; reflexivity. Qed.

(** What a loop that ran to its end has written: one line item and one log
    entry per line, in the order of the lines; each product sold is left
    with the stock its last line computed from the row read by the pricing
    stage. *)
Lemma forEach_persistLine_ok (env : Env) (tid rd : Z) (sub disc : Q)
    (rows : list Line) :
  forall (db db' : Db) (n n' : nat) (u : unit),
  forEach (persistLine env tid rd sub disc) rows (db, n) = ((db', n'), Ok u) ->
  no_fault env n (n + 3 * length rows) /\
  same_ledger db db' /\
  (exists new, transactionItems db' = transactionItems db ++ new /\
               map snd new = map (mkTransactionItem tid sub disc) rows) /\
  (exists new, productLogs db' = productLogs db ++ new /\
               map snd new = map (mkProductLog tid rd sub disc) rows) /\
  (forall pid,
     match last_line pid rows with
     | None => products db' !! pid = products db !! pid
     | Some r =>
         exists at_,
           products db' !! pid =
           Product.set_stock (Product.quantity (product r) - line_qty r)%Q at_
             <$> products db !! pid
     end).
Proof.
  induction rows as [|r rs IH]; intros db db' n n' u H; simpl in H.
  - unfold ret in H. injection H as <- <-.
    split; [intros k Hk; simpl length in Hk; lia|].
    split; [apply same_ledger_refl|].
    split; [exists []; rewrite app_nil_r; split; reflexivity|].
    split; [exists []; rewrite app_nil_r; split; reflexivity|].
    intros pid. reflexivity.
  - unfold bind in H.
    destruct (persistLine env tid rd sub disc r (db, n))
      as [[db1 n1] [u1|e1]] eqn:E1; [|discriminate].
    apply persistLine_ok in E1 as (-> & F1 & L1 & (i1 & I1) & (g1 & G1) & P1).
    apply IH in H as (F2 & L2 & (new2 & I2 & M2) & (log2 & G2 & N2) & P2).
    split.
    { intros k Hk. simpl length in Hk.
      destruct (Nat.lt_ge_cases k (n + 3)) as [Hlt|Hge].
      - apply F1. lia.
      - apply F2. lia. }
    split; [exact (same_ledger_trans _ _ _ L1 L2)|].
    split.
    { exists ((i1, mkTransactionItem tid sub disc r) :: new2).
      rewrite I2, I1, <- app_assoc. simpl. split; [reflexivity|].
      rewrite M2. reflexivity. }
    split.
    { exists ((g1, mkProductLog tid rd sub disc r) :: log2).
      rewrite G2, G1, <- app_assoc. simpl. split; [reflexivity|].
      rewrite N2. reflexivity. }
    intros pid. specialize (P2 pid). simpl.
    destruct (last_line pid rs) as [r'|].
    + destruct P2 as (at_ & P2). exists at_. rewrite P2, P1, lookup_alter.
      case_decide; [subst; apply set_stock_twice | reflexivity].
    + rewrite P2, P1, lookup_alter.
      destruct (Z.eqb_spec (product_id r) pid) as [->|Hne].
      * rewrite decide_True by reflexivity. eexists. reflexivity.
      * rewrite decide_False by exact Hne. reflexivity.
Qed.

(** ** A checkout that committed *)

Lemma insert_transactions_ok (v : Transaction.t) (db db' : Db) (id : Z) :
  insert_transactions v db = Ok (db', id) ->
  id = next_transaction_id db /\
  is_Some (users db !! Transaction.createdBy v) /\
  users db' = users db /\ products db' = products db /\
  receipts db' = receipts db /\ storeSettings db' = storeSettings db /\
  transactionItems db' = transactionItems db /\
  productLogs db' = productLogs db /\
  transactions db' = <[id := v]> (transactions db).
Proof.
  unfold insert_transactions.
  destruct (is_present _ _) eqn:E; [|discriminate].
  apply is_present_true in E.
  intros [= <- <-]. repeat split. exact E.
Qed.

Lemma insert_receipts_ok (id : Z) (v : Receipt.t) (db db' : Db) (id' : Z) :
  insert_receipts id v db = Ok (db', id') ->
  receipts db !! id = None /\
  users db' = users db /\ products db' = products db /\
  transactions db' = transactions db /\ storeSettings db' = storeSettings db /\
  transactionItems db' = transactionItems db /\
  productLogs db' = productLogs db /\
  receipts db' = <[id := v]> (receipts db).
Proof.
  unfold insert_receipts.
  destruct (is_present (receipts db) id) eqn:E; [discriminate|].
  apply is_present_false in E.
  destruct (is_present _ _); [|discriminate].
  intros [= <- <-]. repeat split. exact E.
Qed.

Lemma createReceiptWithItems_body_ok (env : Env) (args : CheckoutArgs)
    (db db' : Db) (n' : nat) (res : CheckoutResult) :
  createReceiptWithItems_body env args (db, O) = ((db', n'), Ok res) ->
  exists t,
    computeReceiptTotals db (items args) (discountRequested args) = Ok t /\
    Committed env args db db' res t.
Proof.
  unfold createReceiptWithItems_body, bind, readDb.
  destruct (computeReceiptTotals db (items args) (discountRequested args))
    as [t|e] eqn:Et; [|discriminate].
  destruct (run env (insert_transactions _) (db, O))
    as [st1 [tid|e1]] eqn:E1; [|discriminate].
  apply run_ok in E1 as (F1 & db1 & S1 & ->).
  destruct (run env (insert_receipts tid _) (db1, 1%nat))
    as [st2 [rid|e2]] eqn:E2; [|discriminate].
  apply run_ok in E2 as (F2 & db2 & S2 & ->).
  destruct (forEach _ (rows t) (db2, 2%nat)) as [[db3 n3] [u|e3]] eqn:E3;
    [|discriminate].
  unfold ret. intros [= <- <- <-].
  apply insert_transactions_ok in S1
    as (-> & Hu & U1 & P1 & R1 & S1 & I1 & G1 & T1).
  apply insert_receipts_ok in S2 as (Hr & U2 & P2 & T2 & S2 & I2 & G2 & R2).
  apply forEach_persistLine_ok in E3
    as (F3 & (U3 & R3 & T3 & S3) & (ni & I3 & M3) & (nl & G3 & N3) & P3).
  exists t. split; [reflexivity|].
  constructor.
  - intros k Hk.
    assert (k = O \/ k = 1%nat \/ (2 <= k < 2 + 3 * length (rows t))%nat)
      as [->|[->|Hk']] by lia; [assumption | assumption | apply F3; exact Hk'].
  - reflexivity.
  - exact Hu.
  - apply next_rowid_fresh.
  - congruence.
  - congruence.
  - congruence.
  - congruence.
  - congruence.
  - exists ni. split; [congruence | exact M3].
  - exists nl. split; [congruence | exact N3].
  - intros pid. specialize (P3 pid). rewrite P2, P1 in P3. exact P3.
Qed.

Lemma createReceiptWithItems_ok (env : Env) (args : CheckoutArgs)
    (db db' : Db) (res : CheckoutResult) :
  createReceiptWithItems env args db = (db', Ok res) ->
  exists t,
    computeReceiptTotals db (items args) (discountRequested args) = Ok t /\
    Committed env args db db' res t.
Proof.
  unfold createReceiptWithItems, sqlite_transaction.
  destruct (createReceiptWithItems_body env args (db, O))
    as [[db1 n1] [r|e]] eqn:E; [|discriminate].
  intros [= <- <-]. eapply createReceiptWithItems_body_ok. exact E.
Qed.

(** A checkout that failed has rolled back. *)
Lemma createReceiptWithItems_err (env : Env) (args : CheckoutArgs)
    (db db' : Db) (e : Error) :
  createReceiptWithItems env args db = (db', Err e) -> db' = db.
Proof.
  unfold createReceiptWithItems, sqlite_transaction.
  destruct (createReceiptWithItems_body env args (db, O)) as [[db1 n1] [r|e']].
  - discriminate.
  - intros [= <- _]. reflexivity.
Qed.

(** ** A checkout that goes through *)

Lemma persistLine_succeeds (env : Env) (tid rd : Z) (sub disc : Q) (r : Line)
    (db : Db) (n : nat) :
  no_fault env n (n + 3) ->
  is_Some (transactions db !! tid) -> is_Some (receipts db !! tid) ->
  is_Some (products db !! product_id r) ->
  exists db',
    persistLine env tid rd sub disc r (db, n) = ((db', (n + 3)%nat), Ok tt).
Proof.
  intros Hio Ht Hr Hp.
  apply is_present_true in Ht, Hr, Hp.
  unfold persistLine, bind.
  destruct (insert_transactionItems (mkTransactionItem tid sub disc r) db)
    as [[db1 id1]|e] eqn:E1.
  2:{ unfold insert_transactionItems in E1. simpl in E1.
      rewrite Ht, Hp in E1. discriminate. }
  rewrite (run_no_fault _ _ _ _ _ _ (Hio n ltac:(lia)) E1).
  apply insert_transactionItems_ok in E1 as ((_ & R1 & _ & _) & P1 & _ & _).
  destruct (insert_productLogs (mkProductLog tid rd sub disc r) db1)
    as [[db2 id2]|e] eqn:E2.
  2:{ unfold insert_productLogs in E2. simpl in E2.
      rewrite P1, R1, Hr, Hp in E2. discriminate. }
  rewrite (run_no_fault _ _ _ _ _ _ (Hio (S n) ltac:(lia)) E2).
  unfold newDate.
  erewrite run_no_fault; [|apply Hio; lia|reflexivity].
  unfold ret. replace (n + 3)%nat with (S (S (S n))) by lia.
  eexists. reflexivity.
Qed.

Lemma forEach_persistLine_succeeds (env : Env) (tid rd : Z) (sub disc : Q)
    (rows : list Line) :
  forall (db : Db) (n : nat),
  no_fault env n (n + 3 * length rows) ->
  is_Some (transactions db !! tid) -> is_Some (receipts db !! tid) ->
  Forall (fun r => is_Some (products db !! product_id r)) rows ->
  exists db' n',
    forEach (persistLine env tid rd sub disc) rows (db, n) = ((db', n'), Ok tt).
Proof.
  induction rows as [|r rs IH]; intros db n Hio Ht Hr Hp.
  - exists db, n. reflexivity.
  - inversion Hp as [|? ? Hp1 Hp2]; subst. simpl length in Hio.
    destruct (persistLine_succeeds env tid rd sub disc r db n) as (db1 & E1);
      [intros k Hk; apply Hio; lia | exact Ht | exact Hr | exact Hp1 |].
    simpl. unfold bind. rewrite E1.
    apply persistLine_ok in E1 as (_ & _ & (_ & R1 & T1 & _) & _ & _ & P1).
    apply IH.
    + intros k Hk. apply Hio. lia.
    + rewrite T1. exact Ht.
    + rewrite R1. exact Hr.
    + eapply Forall_impl; [exact Hp2|]. intros r' [p Hp'].
      rewrite P1, lookup_alter. case_decide as E; [rewrite E|];
        rewrite Hp'; simpl; eauto.
Qed.

(** With an existing actor, lines that price, a free receipt id and no
    failure of the store, the checkout commits and returns the totals. *)
Lemma createReceiptWithItems_succeeds (env : Env) (args : CheckoutArgs)
    (db : Db) (t : Totals) :
  no_fault env 0 (2 + 3 * length (rows t)) ->
  is_Some (users db !! createdBy args) ->
  computeReceiptTotals db (items args) (discountRequested args) = Ok t ->
  receipts db !! next_transaction_id db = None ->
  exists db',
    createReceiptWithItems env args db =
    (db', Ok {| receiptId := next_transaction_id db;
                transactionId := next_transaction_id db;
                totalAmount := total t; resultTax := tax t;
                resultDiscount := discount t |}).
Proof.
  intros Hio Hu Ht Hr.
  unfold createReceiptWithItems, sqlite_transaction,
    createReceiptWithItems_body, bind, readDb.
  rewrite Ht.
  destruct (insert_transactions (transactionValues args t) db)
    as [[db1 tid]|e] eqn:E1.
  2:{ unfold insert_transactions in E1. simpl in E1.
      apply is_present_true in Hu. rewrite Hu in E1. discriminate. }
  rewrite (run_no_fault _ _ _ _ _ _ (Hio O ltac:(lia)) E1).
  apply insert_transactions_ok in E1
    as (-> & _ & U1 & P1 & R1 & _ & _ & _ & T1).
  destruct (insert_receipts (next_transaction_id db) (receiptValues args t) db1)
    as [[db2 rid]|e] eqn:E2.
  2:{ unfold insert_receipts in E2. simpl in E2.
      apply is_present_false in Hr. apply is_present_true in Hu.
      rewrite R1, Hr, U1, Hu in E2. discriminate. }
  rewrite (run_no_fault _ _ _ _ _ _ (Hio 1%nat ltac:(lia)) E2).
  apply insert_receipts_ok in E2 as (_ & _ & P2 & T2 & _ & _ & _ & R2).
  destruct (forEach_persistLine_succeeds env (next_transaction_id db)
              (receiptDate args) (subtotal t) (discount t) (rows t) db2 2%nat)
    as (db3 & n3 & E3).
  - intros k Hk. apply Hio. lia.
  - rewrite T2, T1, lookup_insert_eq. eauto.
  - rewrite R2, lookup_insert_eq. eauto.
  - rewrite P2, P1. unfold computeReceiptTotals in Ht.
    destruct (mapM (priceLine db) (items args)) as [rs|e] eqn:Em; [|discriminate].
    injection Ht as <-. simpl.
    apply mapM_ok in Em. clear -Em.
    induction Em as [|it r its rs H _ IH]; constructor; [|exact IH].
    apply priceLine_ok in H as (Hp & -> & _). rewrite Hp. eauto.
  - rewrite E3. unfold ret. exists db3. reflexivity.
Qed.

(** * The checkout's guarantees *)

(** ** Atomicity *)

(** A statement fails with an error of the store. *)
Lemma run_err (env : Env) (stmt : Db -> Result (Db * Z)) (st st' : TxState)
    (e : Error) :
  run env stmt st = (st', Err e) -> e = IoError \/ stmt (fst st) = Err e.
Proof.
  destruct st as [db n]. unfold run.
  destruct (io_fault env n); [intros [= _ <-]; left; reflexivity|].
  destruct (stmt db) as [[db1 id]|e1] eqn:Es; [discriminate|].
  intros [= _ <-]. right. exact Es.
Qed.

Lemma insert_transactions_err (v : Transaction.t) (db : Db) (e : Error) :
  insert_transactions v db = Err e -> pricing_error e = false.
Proof.
  unfold insert_transactions. destruct (is_present _ _); [discriminate|].
  intros [= <-]. reflexivity.
Qed.

Lemma insert_receipts_err (id : Z) (v : Receipt.t) (db : Db) (e : Error) :
  insert_receipts id v db = Err e -> pricing_error e = false.
Proof.
  unfold insert_receipts.
  destruct (is_present (receipts db) id); [intros [= <-]; reflexivity|].
  destruct (is_present _ _); [discriminate|].
  intros [= <-]. reflexivity.
Qed.

Lemma insert_transactionItems_err (v : TransactionItem.t) (db : Db) (e : Error) :
  insert_transactionItems v db = Err e -> pricing_error e = false.
Proof.
  unfold insert_transactionItems. destruct (_ && _); [discriminate|].
  intros [= <-]. reflexivity.
Qed.

Lemma insert_productLogs_err (v : ProductLog.t) (db : Db) (e : Error) :
  insert_productLogs v db = Err e -> pricing_error e = false.
Proof.
  unfold insert_productLogs. destruct (_ && _); [discriminate|].
  intros [= <-]. reflexivity.
Qed.

Lemma persistLine_err (env : Env) (tid rd : Z) (sub disc : Q) (r : Line)
    (st st' : TxState) (e : Error) :
  persistLine env tid rd sub disc r st = (st', Err e) -> pricing_error e = false.
Proof.
  unfold persistLine, bind.
  destruct (run env (insert_transactionItems _) st) as [st1 [id1|e1]] eqn:E1.
  2:{ intros [= _ <-]. apply run_err in E1 as [->|E1]; [reflexivity|].
      eapply insert_transactionItems_err. exact E1. }
  destruct (run env (insert_productLogs _) st1) as [st2 [id2|e2]] eqn:E2.
  2:{ intros [= _ <-]. apply run_err in E2 as [->|E2]; [reflexivity|].
      eapply insert_productLogs_err. exact E2. }
  destruct st2 as [db2 n2]. unfold newDate.
  destruct (run env (update_products _ _ _) (db2, n2)) as [st3 [id3|e3]] eqn:E3.
  - unfold ret. discriminate.
  - intros [= _ <-]. apply run_err in E3 as [->|E3]; [reflexivity|].
    unfold update_products in E3. discriminate.
Qed.

Lemma forEach_persistLine_err (env : Env) (tid rd : Z) (sub disc : Q)
    (rows : list Line) :
  forall (st st' : TxState) (e : Error),
  forEach (persistLine env tid rd sub disc) rows st = (st', Err e) ->
  pricing_error e = false.
Proof.
  induction rows as [|r rs IH]; intros st st' e; simpl.
  - unfold ret. discriminate.
  - unfold bind.
    destruct (persistLine env tid rd sub disc r st) as [st1 [u|e1]] eqn:E1.
    + apply IH.
    + intros [= _ <-]. eapply persistLine_err. exact E1.
Qed.

(** A pricing error can only come from the pricing stage, which ends the
    body before its first statement. *)
Lemma createReceiptWithItems_body_pricing_error (env : Env)
    (args : CheckoutArgs) (db : Db) (st : TxState) (e : Error) :
  createReceiptWithItems_body env args (db, O) = (st, Err e) ->
  pricing_error e = true ->
  computeReceiptTotals db (items args) (discountRequested args) = Err e /\
  st = (db, O).
Proof.
  unfold createReceiptWithItems_body, bind, readDb.
  destruct (computeReceiptTotals db (items args) (discountRequested args))
    as [t|e0] eqn:Et.
  2:{ intros [= <- <-] _. split; reflexivity. }
  intros H He. exfalso.
  assert (pricing_error e = false) as Hf; [|congruence].
  destruct (run env (insert_transactions _) (db, O)) as [st1 [tid|e1]] eqn:E1.
  2:{ injection H as _ <-. apply run_err in E1 as [->|E1]; [reflexivity|].
      eapply insert_transactions_err. exact E1. }
  destruct (run env (insert_receipts tid _) st1) as [st2 [rid|e2]] eqn:E2.
  2:{ injection H as _ <-. apply run_err in E2 as [->|E2]; [reflexivity|].
      eapply insert_receipts_err. exact E2. }
  destruct (forEach _ (rows t) st2) as [st3 [u|e3]] eqn:E3.
  - unfold ret in H. discriminate.
  - injection H as _ <-. eapply forEach_persistLine_err. exact E3.
Qed.


(** C1. Atomicity of the checkout: a call that fails, at whatever point,
    leaves the store as it was before the call: no new transaction, receipt,
    line-item or log row, and every product row, its quantity included,
    unchanged.  When the error is one of the pricing stage
    ([ProductNotFound], [InvalidQuantity], [InsufficientStock]), the body
    of the unit of work has ended on the store it was given before running
    any statement: nothing was written, so nothing had to be rolled back. *)
Theorem checkout_atomic (env : Env) (args : CheckoutArgs) (db db' : Db)
    (e : Error) :
  createReceiptWithItems env args db = (db', Err e) ->
  db' = db /\
  (pricing_error e = true ->
   createReceiptWithItems_body env args (db, O) = ((db, O), Err e)).
Proof.
  intros H. split.
  - eapply createReceiptWithItems_err. exact H.
  - intros He. unfold createReceiptWithItems, sqlite_transaction in H.
    destruct (createReceiptWithItems_body env args (db, O))
      as [[db1 n1] [r|e0]] eqn:E.
    + discriminate.
    + injection H as _ <-.
      apply createReceiptWithItems_body_pricing_error in E as (_ & ->);
        [reflexivity | exact He].
Qed.

(** A cart asking for more oil than is in stock is refused by the pricing
    stage before anything is written; a cart whose fourth statement fails
    is rolled back, after the body had written three rows. *)
Lemma checkout_atomic_witness :
  (fst (createReceiptWithItems calm cart_oil_5 shop) = shop /\
   createReceiptWithItems_body calm cart_oil_5 (shop, O) =
   ((shop, O), Err (InsufficientStock "Oil"))) /\
  (fst (createReceiptWithItems faulty cart_rice_twice shop) = shop /\
   size (transactions
           (fst (fst (createReceiptWithItems_body faulty cart_rice_twice
                        (shop, O))))) = 1%nat).
Proof.
  split.
  - destruct (checkout_atomic calm cart_oil_5 shop shop
                (InsufficientStock "Oil")) as [Hsame Hbody].
    + vm_compute. reflexivity.
    + split; [exact Hsame | exact (Hbody eq_refl)].
  - destruct (checkout_atomic faulty cart_rice_twice shop shop IoError)
      as [Hsame _].
    + vm_compute. reflexivity.
    + split; [exact Hsame | vm_compute; reflexivity].
Defined.

(** ** The two records of a sale *)

(** C9. Read-after-write: after a checkout that succeeded, the [receipts]
    row read back by the returned [receiptId] carries the [totalAmount],
    [tax] and [discount] of the result, and so does the [transactions] row
    read back by the returned [transactionId]. *)
Theorem read_after_write (env : Env) (args : CheckoutArgs) (db db' : Db)
    (res : CheckoutResult) :
  createReceiptWithItems env args db = (db', Ok res) ->
  (exists row,
     receipts db' !! receiptId res = Some row /\
     Receipt.totalAmount row = totalAmount res /\
     Receipt.tax row = resultTax res /\
     Receipt.discount row = resultDiscount res) /\
  (exists row,
     transactions db' !! transactionId res = Some row /\
     Transaction.finalAmount row = totalAmount res /\
     Transaction.tax row = resultTax res /\
     Transaction.discount row = resultDiscount res).
Proof.
  intros H. apply createReceiptWithItems_ok in H as (t & _ & C).
  rewrite (c_result _ _ _ _ _ _ C), (c_receipts _ _ _ _ _ _ C),
    (c_transactions _ _ _ _ _ _ C). simpl.
  split.
  - exists (receiptValues args t). rewrite lookup_insert_eq. repeat split.
  - exists (transactionValues args t). rewrite lookup_insert_eq. repeat split.
Qed.

Lemma read_after_write_witness :
  createReceiptWithItems calm cart_two_lines shop
  = (shop_after_two_lines, Ok sale_two_lines) /\
  (exists row,
     receipts shop_after_two_lines !! 1 = Some row /\
     Receipt.totalAmount row = totalAmount sale_two_lines /\
     Receipt.tax row = resultTax sale_two_lines /\
     Receipt.discount row = resultDiscount sale_two_lines) /\
  (exists row,
     transactions shop_after_two_lines !! 1 = Some row /\
     Transaction.finalAmount row = totalAmount sale_two_lines /\
     Transaction.tax row = resultTax sale_two_lines /\
     Transaction.discount row = resultDiscount sale_two_lines).
Proof.
  split; [vm_compute; reflexivity|].
  apply (read_after_write calm cart_two_lines shop shop_after_two_lines
           sale_two_lines).
  vm_compute. reflexivity.
Defined.



(** ** Totals *)

Lemma computeReceiptTotals_ok (db : Db) (its : list Item) (d : Q) (t : Totals) :
  computeReceiptTotals db its d = Ok t ->
  mapM (priceLine db) its = Ok (rows t) /\
  subtotal t = reduce_sum lineGross (rows t) /\
  tax t = reduce_sum lineTax (rows t) /\
  discount t = Qmax 0 (Qmin (orZero d) (subtotal t)) /\
  total t = Qmax 0 (subtotal t - discount t + tax t)%Q.
Proof.
  unfold computeReceiptTotals.
  destruct (mapM (priceLine db) its) as [rs|e]; [|discriminate].
  intros [= <-]. simpl. repeat split.
Qed.

(** Rows made from lines that were made from items. *)
Lemma Forall2_through_map {A B C D : Type} (P : A -> B -> Prop)
    (R : A -> C -> Prop) (f : C -> D) (g : B -> D) :
  (forall a b c, P a b -> f c = g b -> R a c) ->
  forall (xs : list A) (ys : list B) (zs : list C),
  Forall2 P xs ys -> map f zs = map g ys -> Forall2 R xs zs.
Proof.
  intros HR xs ys zs HP. revert zs.
  induction HP as [|x y xs ys Hxy _ IH]; intros [|z zs] Hm;
    try discriminate; constructor.
  - injection Hm as Hz _. eapply HR; eassumption.
  - injection Hm as _ Hm. apply IH. exact Hm.
Qed.

Lemma reduce_sum_snd {A B : Type} (f : B -> Q) (g : A -> B)
    (new : list (Z * B)) (rs : list A) :
  map snd new = map g rs ->
  reduce_sum (fun row => f (snd row)) new = reduce_sum (fun r => f (g r)) rs.
Proof.
  intros H. rewrite <- (reduce_sum_map snd f new), H. apply reduce_sum_map.
Qed.

(** C3. Totals formula: after a checkout that succeeded there is one line
    item per requested item, in order; each has the product's price as unit
    price, [amount = unitPrice * quantity] and
    [tax = amount * gst / 100]; with [subtotal] the sum of the lines'
    amounts, the returned tax is the sum of the lines' taxes and the
    returned total is [max(0, subtotal - discount + tax)]. *)
Theorem totals_formula (env : Env) (args : CheckoutArgs) (db db' : Db)
    (res : CheckoutResult) :
  createReceiptWithItems env args db = (db', Ok res) ->
  exists new : list (Z * TransactionItem.t),
    transactionItems db' = transactionItems db ++ new /\
    Forall2
      (fun it row =>
         exists p,
           products db !! productId it = Some p /\
           TransactionItem.productId (snd row) = productId it /\
           TransactionItem.quantity (snd row) = qty it /\
           TransactionItem.unitPrice (snd row) = Product.mrp p /\
           TransactionItem.amount (snd row) =
             (TransactionItem.unitPrice (snd row) *
              TransactionItem.quantity (snd row))%Q /\
           (TransactionItem.tax (snd row) ==
              TransactionItem.amount (snd row) * Product.gst p / 100)%Q)
      (items args) new /\
    let subtotal := reduce_sum (fun row => TransactionItem.amount (snd row)) new in
    let tax := reduce_sum (fun row => TransactionItem.tax (snd row)) new in
    resultTax res = tax /\
    totalAmount res = Qmax 0 (subtotal - resultDiscount res + tax)%Q.
Proof.
  intros H. apply createReceiptWithItems_ok in H as (t & Ht & C).
  destruct (c_transactionItems _ _ _ _ _ _ C) as (new & Hnew & Hmap).
  apply computeReceiptTotals_ok in Ht as (Hrows & Hsub & Htax & _ & Htot).
  exists new. split; [exact Hnew|]. split.
  - apply mapM_ok in Hrows.
    eapply Forall2_through_map; [|exact Hrows|exact Hmap].
    intros it r row Hr ->.
    apply priceLine_ok in Hr as (Hp & Hid & Hq & _ & _ & Hg & Hx).
    exists (product r). simpl. rewrite Hq. repeat split; try assumption.
    rewrite Hx. rewrite orZero_Qeq. reflexivity.
  - cbv zeta. rewrite (c_result _ _ _ _ _ _ C). simpl.
    rewrite (reduce_sum_snd TransactionItem.amount _ _ _ Hmap),
      (reduce_sum_snd TransactionItem.tax _ _ _ Hmap). simpl.
    split; [exact Htax|].
    rewrite Htot, Hsub, Htax. reflexivity.
Qed.

Lemma totals_formula_witness :
  createReceiptWithItems calm cart_two_lines shop
  = (shop_after_two_lines, Ok sale_two_lines) /\
  exists new : list (Z * TransactionItem.t),
    transactionItems shop_after_two_lines = transactionItems shop ++ new /\
    resultTax sale_two_lines =
      reduce_sum (fun row => TransactionItem.tax (snd row)) new /\
    totalAmount sale_two_lines =
      Qmax 0 (reduce_sum (fun row => TransactionItem.amount (snd row)) new
              - resultDiscount sale_two_lines
              + reduce_sum (fun row => TransactionItem.tax (snd row)) new)%Q.
Proof.
  split; [vm_compute; reflexivity|].
  destruct (totals_formula calm cart_two_lines shop shop_after_two_lines
              sale_two_lines) as (new & Hnew & _ & Htax & Htot).
  - vm_compute. reflexivity.
  - exists new. repeat split; assumption.
Defined.

(** The second scenario of the examples: one unit at 100 with 12% tax and
    10 off gives a total of 102, of which 12 of tax. *)
Example totals_of_one_line :
  exists t,
    computeReceiptTotals shop [ {| productId := 2; qty := 1 |} ] 10 = Ok t /\
    (subtotal t == 100)%Q /\ (tax t == 12)%Q /\ (discount t == 10)%Q /\
    (total t == 102)%Q.
Proof.
  eexists. split; [reflexivity|]. repeat split; vm_compute; reflexivity.
Qed.

(** ** The discount *)

(** Over exact arithmetic the lines' shares of the discount add up to the
    discount. *)
Lemma lineDiscount_sum (sub disc : Q) (rs : list Line) :
  sub = reduce_sum lineGross rs ->
  (disc == Qmax 0 (Qmin disc sub))%Q ->
  (reduce_sum (lineDiscount sub disc) rs == disc)%Q.
Proof.
  intros Hsub Hd. unfold lineDiscount.
  destruct (Qltb 0 sub) eqn:E.
  - apply Qltb_lt in E.
    rewrite (reduce_sum_scale lineGross disc sub rs).
    + rewrite <- Hsub. field. intros H0. rewrite H0 in E.
      exact (Qlt_irrefl _ E).
    + intros H0. rewrite H0 in E. exact (Qlt_irrefl _ E).
  - apply Qltb_ge in E. rewrite reduce_sum_zero, Hd.
    symmetry. apply Q.max_l.
    eapply Qle_trans; [apply Q.le_min_r | exact E].
Qed.

Lemma Qmax_min_idem (d s : Q) :
  (Qmax 0 (Qmin d s) == Qmax 0 (Qmin (Qmax 0 (Qmin d s)) s))%Q.
Proof.
  destruct (Qlt_le_dec s 0) as [Hs|Hs].
  - rewrite (Q.max_l 0 (Qmin d s)).
    + rewrite (Q.max_l 0 (Qmin 0 s)); [reflexivity|]. apply Q.le_min_l.
    + eapply Qle_trans; [apply Q.le_min_r | apply Qlt_le_weak; exact Hs].
  - rewrite (Q.min_l (Qmax 0 (Qmin d s)) s).
    + rewrite (Q.max_r 0 (Qmax 0 (Qmin d s))); [reflexivity|].
      apply Q.le_max_l.
    + apply Q.max_lub; [exact Hs | apply Q.le_min_r].
Qed.

(** Over exact arithmetic the shares of the lines of a priced cart add up
    to the discount applied. *)
Lemma exact_shares_add_up (db : Db) (its : list Item) (d : Q) (t : Totals) :
  computeReceiptTotals db its d = Ok t ->
  (reduce_sum (lineDiscount (subtotal t) (discount t)) (rows t)
   == discount t)%Q.
Proof.
  intros H. apply computeReceiptTotals_ok in H as (_ & Hsub & _ & Hdisc & _).
  apply lineDiscount_sum; [exact Hsub|].
  rewrite Hdisc at 1. rewrite Hdisc. apply Qmax_min_idem.
Qed.




(** On an everyday cart the sum is off by rounding: one each of goods
    priced 0.1, 0.2 and 0.3 with 0.5 off the bill, and the three discounts
    written add up to less than 0.5. *)
Example shares_drift_on_doubles :
  exists t : Double.Totals,
    Double.computeReceiptTotals Double.grocery Double.one_of_each Double.half
    = Ok t /\
    Double.discount t = Double.half /\
    PrimFloat.ltb (Double.reduce_sum (fun share => share)
                     (Double.lineDiscounts t))
                  (Double.discount t) = true.
Proof.
  eexists. split; [vm_compute; reflexivity|].
  split; vm_compute; reflexivity.
Qed.

(** The fourth scenario of the examples: lines of 150 and 50 share a
    discount of 20 as 15 and 5. *)
Example shares_of_two_lines :
  Forall2 (fun row share => (TransactionItem.discount (snd row) == share)%Q)
          (transactionItems shop_after_two_lines) [ 15%Q; 5%Q ].
Proof.
  vm_compute. repeat constructor.
Qed.






(** The fifth scenario of the examples: 500 off a subtotal of 100 is
    clamped to 100, and the total is the tax. *)
Example clamp_of_an_excessive_discount :
  exists t,
    computeReceiptTotals shop [ {| productId := 2; qty := 1 |} ] 500 = Ok t /\
    (subtotal t == 100)%Q /\ (discount t == 100)%Q /\ (total t == 12)%Q.
Proof.
  eexists. split; [reflexivity|]. repeat split; vm_compute; reflexivity.
Qed.

(** ** The stock check *)

Lemma priceLine_insufficient (db : Db) (it : Item) (p : Product.t) :
  products db !! productId it = Some p ->
  (0 < qty it)%Q -> (Product.quantity p < qty it)%Q ->
  priceLine db it = Err (InsufficientStock (Product.productName p)).
Proof.
  intros Hp Hq Hs. unfold priceLine. rewrite Hp.
  destruct (Qle_bool (qty it) 0) eqn:E.
  - apply Qle_bool_iff in E. exfalso. exact (Qlt_not_le _ _ Hq E).
  - apply Qltb_lt in Hs. rewrite Hs. reflexivity.
Qed.

(** C6, as the code has it.  When the lines before it price and a line asks
    for a positive quantity above the stock of its product, the checkout
    fails with [InsufficientStock] carrying the product's name and the
    store is left as it was, whatever the [store_settings] table holds:
    [allowNegativeStock] is not consulted. *)
Theorem insufficient_stock_rejected (env : Env) (args : CheckoutArgs) (db : Db)
    (pre post : list Item) (it : Item) (rs : list Line) (p : Product.t)
    (s : gmap Z StoreSettings.t) :
  items args = pre ++ it :: post ->
  mapM (priceLine db) pre = Ok rs ->
  products db !! productId it = Some p ->
  (0 < qty it)%Q ->
  (Product.quantity p < qty it)%Q ->
  createReceiptWithItems env args (set_storeSettings s db) =
  (set_storeSettings s db, Err (InsufficientStock (Product.productName p))).
Proof.
  intros Hitems Hpre Hp Hq Hs.
  unfold createReceiptWithItems, sqlite_transaction,
    createReceiptWithItems_body, bind, readDb, computeReceiptTotals.
  change (priceLine (set_storeSettings s db)) with (priceLine db).
  rewrite Hitems.
  rewrite (mapM_app_err (priceLine db) pre post it rs _ Hpre
             (priceLine_insufficient db it p Hp Hq Hs)).
  reflexivity.
Qed.

Lemma insufficient_stock_rejected_witness :
  createReceiptWithItems calm
    (cart 1 0 [ {| productId := 1; qty := 2 |}; {| productId := 2; qty := 5 |} ])
    (set_storeSettings ∅ shop)
  = (set_storeSettings ∅ shop, Err (InsufficientStock "Oil")).
Proof.
  apply (insufficient_stock_rejected calm
           (cart 1 0 [ {| productId := 1; qty := 2 |};
                       {| productId := 2; qty := 5 |} ])
           shop [ {| productId := 1; qty := 2 |} ] []
           {| productId := 2; qty := 5 |}
           [ {| product_id := 1; product := sample_product "Rice" 10 10 0;
                line_qty := 2; lineGross := 10 * 2;
                lineTax := 10 * 2 * 0 / 100 |} ]
           (sample_product "Oil" 3 100 12) ∅).
  - reflexivity.
  - vm_compute. reflexivity.
  - vm_compute. reflexivity.
  - reflexivity.
  - reflexivity.
Defined.

(** C6 as the specification words it fails: the sample store allows
    negative stock, and the cart asking for 5 units of oil, 3 in stock,
    is refused all the same. *)
Lemma negative_stock_policy_counterexample :
  allowsNegativeStock shop = true /\
  (Product.quantity <$> products shop !! 2) = Some 3%Q /\
  items cart_oil_5 = [ {| productId := 2; qty := 5 |} ] /\
  createReceiptWithItems calm cart_oil_5 shop =
  (shop, Err (InsufficientStock "Oil")).
Proof.
  repeat split; vm_compute; reflexivity.
Qed.

(** ** The preconditions of a checkout *)

Lemma computeReceiptTotals_empty (db : Db) (d : Q) :
  exists t,
    computeReceiptTotals db [] d = Ok t /\ rows t = [] /\
    (total t == 0)%Q /\ (tax t == 0)%Q /\ (discount t == 0)%Q.
Proof.
  eexists. split; [reflexivity|]. simpl.
  assert (Hd : (Qmax 0 (Qmin (orZero d) (reduce_sum lineGross [])) == 0)%Q).
  { apply Q.max_l. apply Q.le_min_r. }
  split; [reflexivity|]. split; [|split; [reflexivity | exact Hd]].
  rewrite Hd. reflexivity.
Qed.

(** C7, as the code has it.  An empty cart is not refused: when the actor
    exists, the id of the new transaction is free in [receipts] and the
    two inserts go through, the handler answers with success and zero
    totals; one [transactions] row and one [receipts] row are written under
    a fresh id; no line item and no log entry is written and no product
    changes. *)
Theorem empty_cart_commits (env : Env) (now : Z) (args : PosCheckoutArgs)
    (db : Db) :
  pos_items args = [] ->
  is_Some (users db !! pos_createdBy args) ->
  receipts db !! next_transaction_id db = None ->
  io_fault env 0 = false -> io_fault env 1 = false ->
  exists db' res,
    pos_checkout env now args db = (db', ok res) /\
    (totalAmount res == 0)%Q /\ (resultTax res == 0)%Q /\
    (resultDiscount res == 0)%Q /\
    transactions db !! transactionId res = None /\
    is_Some (transactions db' !! transactionId res) /\
    is_Some (receipts db' !! receiptId res) /\
    transactionItems db' = transactionItems db /\
    productLogs db' = productLogs db /\
    products db' = products db.
Proof.
  intros Hitems Hu Hr F0 F1. unfold pos_checkout.
  set (cargs := {| createdBy := pos_createdBy args; receiptDate := now;
                   discountRequested := orZero (pos_discount args);
                   paymentSplit := pos_paymentSplit args;
                   items := pos_items args |}).
  destruct (computeReceiptTotals_empty db (discountRequested cargs))
    as (t & Ht & Hrows & Htot & Htax & Hdisc).
  assert (Ht' : computeReceiptTotals db (items cargs) (discountRequested cargs)
                = Ok t) by (simpl; rewrite Hitems; exact Ht).
  destruct (createReceiptWithItems_succeeds env cargs db t) as (db' & E);
    [|exact Hu|exact Ht'|exact Hr|].
  { rewrite Hrows. intros k Hk. simpl in Hk.
    assert (k = O \/ k = 1%nat) as [->| ->] by lia; assumption. }
  rewrite E. eexists _, _. split; [reflexivity|]. simpl.
  apply createReceiptWithItems_ok in E as (t2 & Ht2 & C).
  rewrite Ht' in Ht2. injection Ht2 as <-.
  split; [exact Htot|]. split; [exact Htax|]. split; [exact Hdisc|].
  split; [exact (c_transaction_fresh _ _ _ _ _ _ C)|].
  split; [rewrite (c_transactions _ _ _ _ _ _ C), lookup_insert_eq; eauto|].
  split; [rewrite (c_receipts _ _ _ _ _ _ C), lookup_insert_eq; eauto|].
  destruct (c_transactionItems _ _ _ _ _ _ C) as (new & Hnew & Hmap).
  destruct (c_productLogs _ _ _ _ _ _ C) as (logs & Hlogs & Hlmap).
  rewrite Hrows in Hmap, Hlmap.
  destruct new; [|discriminate]. destruct logs; [|discriminate].
  rewrite app_nil_r in Hnew, Hlogs.
  split; [exact Hnew|]. split; [exact Hlogs|].
  apply map_eq. intros pid.
  pose proof (c_products _ _ _ _ _ _ C pid) as Hp.
  rewrite Hrows in Hp. exact Hp.
Qed.

Lemma empty_cart_commits_witness :
  exists db' res,
    pos_checkout calm 500 empty_cart_call shop = (db', ok res) /\
    (totalAmount res == 0)%Q /\ (resultTax res == 0)%Q /\
    (resultDiscount res == 0)%Q /\
    transactions shop !! transactionId res = None /\
    is_Some (transactions db' !! transactionId res) /\
    is_Some (receipts db' !! receiptId res) /\
    transactionItems db' = transactionItems shop /\
    productLogs db' = productLogs shop /\
    products db' = products shop.
Proof.
  apply (empty_cart_commits calm 500 empty_cart_call shop).
  - reflexivity.
  - vm_compute. eauto.
  - vm_compute. reflexivity.
  - reflexivity.
  - reflexivity.
Defined.

(** C7 as the specification words it fails: the handler called with an
    empty cart answers with success and leaves a [transactions] row and a
    [receipts] row behind. *)
Lemma empty_cart_counterexample :
  pos_items empty_cart_call = [] /\
  snd (pos_checkout calm 500 empty_cart_call shop)
  = ok {| receiptId := 1; transactionId := 1; totalAmount := 0;
          resultTax := 0; resultDiscount := 0 |} /\
  size (transactions shop) = 0%nat /\
  size (transactions (fst (pos_checkout calm 500 empty_cart_call shop))) = 1%nat /\
  size (receipts shop) = 0%nat /\
  size (receipts (fst (pos_checkout calm 500 empty_cart_call shop))) = 1%nat.
Proof.
  repeat split; vm_compute; reflexivity.
Qed.




(** ** Stock *)

Lemma last_line_None (pid : Z) (rs : list Line) :
  pid ∉ (product_id <$> rs) -> last_line pid rs = None.
Proof.
  induction rs as [|r rs IH]; [reflexivity|].
  rewrite fmap_cons, not_elem_of_cons. intros [Hne Hnin].
  simpl. rewrite (IH Hnin).
  destruct (Z.eqb_spec (product_id r) pid) as [E|_]; [|reflexivity].
  congruence.
Qed.

Lemma priced_lines_product_ids (db : Db) (its : list Item) (rs : list Line) :
  Forall2 (fun it r => priceLine db it = Ok r) its rs ->
  product_id <$> rs = productId <$> its.
Proof.
  induction 1 as [|it r its rs H _ IH]; [reflexivity|].
  apply priceLine_ok in H as (_ & Hid & _).
  rewrite !fmap_cons, Hid, IH. reflexivity.
Qed.

(** In a cart that names each product once, the last line of a product is
    its only line. *)
Lemma last_line_distinct (db : Db) (its : list Item) (rs : list Line) :
  Forall2 (fun it r => priceLine db it = Ok r) its rs ->
  NoDup (productId <$> its) ->
  forall it, it ∈ its ->
  exists r, last_line (productId it) rs = Some r /\ priceLine db it = Ok r.
Proof.
  induction 1 as [|it0 r0 its rs H0 Hrest IH]; intros Hnd it Hin.
  - apply elem_of_nil in Hin. contradiction.
  - rewrite fmap_cons in Hnd. apply NoDup_cons in Hnd as [Hnin Hnd].
    apply elem_of_cons in Hin as [->|Hin].
    + exists r0. split; [|exact H0]. simpl.
      rewrite last_line_None.
      * apply priceLine_ok in H0 as (_ & -> & _).
        rewrite Z.eqb_refl. reflexivity.
      * rewrite (priced_lines_product_ids db its rs Hrest). exact Hnin.
    + destruct (IH Hnd it Hin) as (r & Hl & Hr).
      exists r. split; [|exact Hr]. simpl. rewrite Hl. reflexivity.
Qed.

(** Stock conservation where it holds: when no product is on two lines of
    the cart, a checkout that succeeded leaves each product sold with its
    stock before the checkout less the quantity sold, and every other
    product row as it was. *)
Lemma stock_conservation_distinct_products (env : Env) (args : CheckoutArgs)
    (db db' : Db) (res : CheckoutResult) :
  createReceiptWithItems env args db = (db', Ok res) ->
  NoDup (productId <$> items args) ->
  (forall it, it ∈ items args ->
     exists p p',
       products db !! productId it = Some p /\
       products db' !! productId it = Some p' /\
       Product.quantity p' = (Product.quantity p - qty it)%Q) /\
  (forall pid, pid ∉ (productId <$> items args) ->
     products db' !! pid = products db !! pid).
Proof.
  intros H Hnd. apply createReceiptWithItems_ok in H as (t & Ht & C).
  apply computeReceiptTotals_ok in Ht as (Hrows & _).
  apply mapM_ok in Hrows. split.
  - intros it Hin.
    destruct (last_line_distinct db _ _ Hrows Hnd it Hin) as (r & Hl & Hr).
    pose proof (c_products _ _ _ _ _ _ C (productId it)) as Hp.
    rewrite Hl in Hp. destruct Hp as (at_ & Hp).
    apply priceLine_ok in Hr as (Hdb & _ & Hq & _).
    exists (product r). eexists. split; [exact Hdb|].
    rewrite Hp, Hdb. simpl. split; [reflexivity|].
    simpl. rewrite Hq. reflexivity.
  - intros pid Hnin.
    pose proof (c_products _ _ _ _ _ _ C pid) as Hp.
    rewrite last_line_None in Hp; [exact Hp|].
    rewrite (priced_lines_product_ids db _ _ Hrows). exact Hnin.
Qed.

(** C2 fails on a cart that has a product on two lines.  The sample store
    holds 10 units of rice; the cart asks for 2 units and then for 3, that
    is 5 in all; the checkout succeeds and writes both lines, and leaves
    7 units in stock, not 5: each line writes the stock read by the
    pricing stage less its own quantity, and the second write overwrites
    the first. *)
Theorem repeated_product_loses_an_update :
  is_ok (snd (createReceiptWithItems calm cart_rice_twice shop)) = true /\
  (Product.quantity <$> products shop !! 1) = Some 10%Q /\
  (requested_qty 1 (items cart_rice_twice) == 5)%Q /\
  map (fun row => (TransactionItem.productId (snd row),
                   TransactionItem.quantity (snd row)))
      (transactionItems (fst (createReceiptWithItems calm cart_rice_twice shop)))
  = [ (1, 2%Q); (1, 3%Q) ] /\
  (Product.quantity <$>
     products (fst (createReceiptWithItems calm cart_rice_twice shop)) !! 1)
  = Some (10 - 3)%Q /\
  ~ (10 - 3 == 10 - requested_qty 1 (items cart_rice_twice))%Q.
Proof.
  split; [vm_compute; reflexivity|].
  split; [vm_compute; reflexivity|].
  split; [vm_compute; reflexivity|].
  split; [vm_compute; reflexivity|].
  split; [vm_compute; reflexivity|].
  vm_compute. discriminate.
Qed.

(** The browser fallback on the same cart: its lines share the product
    object, so the two decrements add up and 5 units are left. *)
Example fallback_repeated_product_decrements_twice :
  Mock.checkout_products
    [ Mock.mkMockProduct 1 "Rice" 10 10 0; Mock.mkMockProduct 2 "Oil" 3 100 12 ]
    (items cart_rice_twice)
  = Ok [ Mock.mkMockProduct 1 "Rice" (10 - 2 - 3) 10 0;
         Mock.mkMockProduct 2 "Oil" 3 100 12 ].
Proof. reflexivity. Qed.

(** * Further properties *)

(** ** [escapeHtml] *)

(** The five passes rewrite each character of the input once: the text a
    pass inserts holds no character a later pass looks for. *)
Lemma escapeHtml_cons (c : ascii) (s : string) :
  escapeHtml (String c s) = (escapeChar c ++ escapeHtml s)%string.
Proof.
  destruct c as [[] [] [] [] [] [] [] []]; reflexivity.
Qed.

Lemma string_app_cons (x : ascii) (a b : string) :
  (String x a ++ b)%string = String x (a ++ b).
Proof. reflexivity. Qed.

Lemma string_app_assoc (a b c : string) :
  ((a ++ b) ++ c)%string = (a ++ (b ++ c))%string.
Proof.
  induction a as [|x a IH]; [reflexivity|].
  rewrite !string_app_cons, IH. reflexivity.
Qed.

(** X1. [escapeHtml] works character by character: the escaped text of a
    concatenation is the concatenation of the escaped texts, so a value
    escaped on its own can be placed between other escaped pieces. *)
Theorem escapeHtml_app (s1 s2 : string) :
  escapeHtml (s1 ++ s2) = (escapeHtml s1 ++ escapeHtml s2)%string.
Proof.
  induction s1 as [|c s1 IH]; [reflexivity|].
  rewrite string_app_cons, !escapeHtml_cons, IH. symmetry. apply string_app_assoc.
Qed.

Lemma occurs_app (c : ascii) (s1 s2 : string) :
  occurs c (s1 ++ s2) <-> occurs c s1 \/ occurs c s2.
Proof.
  unfold occurs. induction s1 as [|a s1 IH].
  - simpl. tauto.
  - rewrite string_app_cons. simpl. rewrite IH. tauto.
Qed.

Lemma occurs_escapeChar (a c : ascii) :
  occurs c (escapeChar a) ->
  c <> "<"%char /\ c <> ">"%char /\ c <> dquote /\ c <> "'"%char.
Proof.
  unfold escapeChar, occurs.
  destruct (Ascii.eqb_spec a "&"); [|destruct (Ascii.eqb_spec a "<");
    [|destruct (Ascii.eqb_spec a ">"); [|destruct (Ascii.eqb_spec a dquote);
    [|destruct (Ascii.eqb_spec a "'")]]]]; simpl; intros H.
  1-5: repeat (destruct H as [<-|H]; [repeat split; discriminate|]);
       contradiction.
  destruct H as [<-|[]]. repeat split; assumption.
Qed.

(** X2. The text [escapeHtml] returns holds none of the characters [<],
    [>], the double quote and the single quote, whatever the input. *)
Theorem escapeHtml_no_markup (s : string) (c : ascii) :
  occurs c (escapeHtml s) ->
  c <> "<"%char /\ c <> ">"%char /\ c <> dquote /\ c <> "'"%char.
Proof.
  induction s as [|a s IH].
  - intros [].
  - rewrite escapeHtml_cons, occurs_app. intros [H|H].
    + eapply occurs_escapeChar. exact H.
    + apply IH. exact H.
Qed.

Example escapeHtml_of_a_tagged_name :
  escapeHtml "<b>Tom & Jerry's</b>"
  = "&lt;b&gt;Tom &amp; Jerry&#39;s&lt;/b&gt;"%string.
Proof. reflexivity. Qed.

Lemma escapeHtml_no_markup_witness :
  occurs "&" (escapeHtml "<b>Tom & Jerry's</b>") /\
  ("&"%char <> "<"%char /\ "&"%char <> ">"%char /\
   "&"%char <> dquote /\ "&"%char <> "'"%char).
Proof.
  split; [vm_compute; tauto|].
  apply (escapeHtml_no_markup "<b>Tom & Jerry's</b>" "&").
  vm_compute. tauto.
Defined.

Lemma escapeChar_inj (c1 c2 : ascii) (x y : string) :
  (escapeChar c1 ++ x)%string = (escapeChar c2 ++ y)%string ->
  c1 = c2 /\ x = y.
Proof.
  unfold escapeChar.
  destruct (Ascii.eqb_spec c1 "&"); [|destruct (Ascii.eqb_spec c1 "<");
    [|destruct (Ascii.eqb_spec c1 ">"); [|destruct (Ascii.eqb_spec c1 dquote);
    [|destruct (Ascii.eqb_spec c1 "'")]]]];
  (destruct (Ascii.eqb_spec c2 "&"); [|destruct (Ascii.eqb_spec c2 "<");
    [|destruct (Ascii.eqb_spec c2 ">"); [|destruct (Ascii.eqb_spec c2 dquote);
    [|destruct (Ascii.eqb_spec c2 "'")]]]]);
  cbv [String.append]; intros H; try discriminate H; subst;
  try (injection H as ->; split; reflexivity);
  try (injection H as H1 H2; subst; congruence);
  try (injection H as H1 H2; split; [assumption | assumption]).
Qed.

(** X3. [escapeHtml] loses nothing: two texts with the same escaped text
    are the same text. *)
Theorem escapeHtml_inj (s1 s2 : string) :
  escapeHtml s1 = escapeHtml s2 -> s1 = s2.
Proof.
  revert s2. induction s1 as [|c1 s1 IH]; intros [|c2 s2] H.
  - reflexivity.
  - rewrite escapeHtml_cons in H. exfalso.
    unfold escapeChar in H.
    repeat (destruct (Ascii.eqb _ _) in H; [discriminate H|]).
    discriminate H.
  - rewrite escapeHtml_cons in H. exfalso.
    unfold escapeChar in H.
    repeat (destruct (Ascii.eqb _ _) in H; [discriminate H|]).
    discriminate H.
  - rewrite !escapeHtml_cons in H.
    apply escapeChar_inj in H as [-> H]. rewrite (IH s2 H). reflexivity.
Qed.

Lemma escapeHtml_inj_witness :
  escapeHtml "a<b" = escapeHtml "a<b" /\ "a<b"%string = "a<b"%string.
Proof.
  split; [reflexivity|]. apply (escapeHtml_inj "a<b" "a<b"). reflexivity.
Defined.

Lemma string_length_app (a b : string) :
  String.length (a ++ b) = (String.length a + String.length b)%nat.
Proof.
  induction a as [|x a IH]; [reflexivity|].
  rewrite string_app_cons. simpl. rewrite IH. reflexivity.
Qed.

Lemma escapeChar_length (a : ascii) :
  (html_special a -> (4 <= String.length (escapeChar a))%nat) /\
  (~ html_special a -> escapeChar a = String a EmptyString).
Proof.
  unfold escapeChar, html_special.
  destruct (Ascii.eqb_spec a "&"); [|destruct (Ascii.eqb_spec a "<");
    [|destruct (Ascii.eqb_spec a ">"); [|destruct (Ascii.eqb_spec a dquote);
    [|destruct (Ascii.eqb_spec a "'")]]]];
  (split;
   [intros H; first [exfalso; tauto | vm_compute; lia]
   | intros H; first [reflexivity | exfalso; tauto]]).
Qed.

(** An escaped text is at least as long as the text. *)
Lemma escapeHtml_length (s : string) :
  (String.length s <= String.length (escapeHtml s))%nat.
Proof.
  induction s as [|a s IH]; [vm_compute; lia|].
  rewrite escapeHtml_cons, string_length_app.
  change (String.length (String a s)) with (S (String.length s)).
  assert (1 <= String.length (escapeChar a))%nat; [|lia].
  unfold escapeChar. repeat (destruct (Ascii.eqb _ _); [vm_compute; lia|]).
  vm_compute. lia.
Qed.

(** X4. A text is returned as it is exactly when it holds none of the five
    characters [&], [<], [>], double quote, single quote. *)
Theorem escapeHtml_unchanged_iff (s : string) :
  escapeHtml s = s <-> (forall c, occurs c s -> ~ html_special c).
Proof.
  induction s as [|a s IH].
  - split; [intros _ c [] | reflexivity].
  - rewrite escapeHtml_cons.
    destruct (escapeChar_length a) as [Hlong Hplain]. split.
    + intros H.
      assert (Ha : ~ html_special a).
      { intros Hs. apply (f_equal String.length) in H.
        rewrite string_length_app in H.
        change (String.length (String a s)) with (S (String.length s)) in H.
        pose proof (Hlong Hs). pose proof (escapeHtml_length s). lia. }
      rewrite (Hplain Ha), string_app_cons in H. injection H as H.
      intros c [<-|Hin]; [exact Ha|]. apply IH; assumption.
    + intros H.
      assert (Ha : ~ html_special a) by (apply H; left; reflexivity).
      rewrite (Hplain Ha), string_app_cons. f_equal. apply IH.
      intros c Hin. apply H. right. exact Hin.
Qed.

Lemma escapeHtml_unchanged_iff_witness :
  escapeHtml "Rice 5kg" = "Rice 5kg"%string.
Proof.
  apply (proj2 (escapeHtml_unchanged_iff "Rice 5kg")).
  intros c H Hs. unfold occurs in H. simpl in H.
  unfold html_special, dquote in Hs.
  repeat (destruct H as [<-|H];
          [destruct Hs as [Hs|[Hs|[Hs|[Hs|Hs]]]]; discriminate Hs|]).
  contradiction.
Defined.

(** ** More on [computeReceiptTotals] *)

Lemma reduce_sum_nonneg {A : Type} (f : A -> Q) (l : list A) :
  Forall (fun x => (0 <= f x)%Q) l -> (0 <= reduce_sum f l)%Q.
Proof.
  induction 1 as [|x l Hx _ IH].
  - apply Qle_refl.
  - rewrite reduce_sum_cons.
    replace 0%Q with (0 + 0)%Q by reflexivity.
    apply Qplus_le_compat; assumption.
Qed.

Lemma committed_subtotal (env : Env) (args : CheckoutArgs) (db db' : Db)
    (res : CheckoutResult) (t : Totals) :
  computeReceiptTotals db (items args) (discountRequested args) = Ok t ->
  Committed env args db db' res t ->
  exists new : list (Z * TransactionItem.t),
    transactionItems db' = transactionItems db ++ new /\
    reduce_sum (fun row => TransactionItem.amount (snd row)) new = subtotal t.
Proof.
  intros Ht C.
  destruct (c_transactionItems _ _ _ _ _ _ C) as (new & Hnew & Hmap).
  apply computeReceiptTotals_ok in Ht as (_ & Hsub & _).
  exists new. split; [exact Hnew|].
  rewrite (reduce_sum_snd TransactionItem.amount _ _ _ Hmap). simpl.
  rewrite Hsub. reflexivity.
Qed.

(** X5. Whatever the prices, the quantities and the requested discount, a
    checkout that succeeded returns a discount and a total that are not
    negative, and the discount is at most [max(0, subtotal)], where the
    subtotal is the sum of the amounts of the new line items. *)
Theorem totals_never_negative (env : Env) (args : CheckoutArgs) (db db' : Db)
    (res : CheckoutResult) :
  createReceiptWithItems env args db = (db', Ok res) ->
  (0 <= resultDiscount res)%Q /\ (0 <= totalAmount res)%Q /\
  exists new : list (Z * TransactionItem.t),
    transactionItems db' = transactionItems db ++ new /\
    (resultDiscount res
     <= Qmax 0 (reduce_sum (fun row => TransactionItem.amount (snd row)) new))%Q.
Proof.
  intros H. apply createReceiptWithItems_ok in H as (t & Ht & C).
  destruct (committed_subtotal _ _ _ _ _ _ Ht C) as (new & Hnew & Hsum).
  rewrite (c_result _ _ _ _ _ _ C). cbn [resultDiscount totalAmount].
  apply computeReceiptTotals_ok in Ht as (_ & _ & _ & Hd & Htot).
  split; [rewrite Hd; apply Q.le_max_l|].
  split; [rewrite Htot; apply Q.le_max_l|].
  exists new. split; [exact Hnew|]. rewrite Hsum, Hd.
  apply Q.max_le_compat_l. apply Q.le_min_r.
Qed.

Lemma totals_never_negative_witness :
  createReceiptWithItems calm cart_return shop
  = (fst (createReceiptWithItems calm cart_return shop),
     Ok {| receiptId := 1; transactionId := 1; totalAmount := 0;
           resultTax := 0 # 100; resultDiscount := 0 |}) /\
  (0 <= 0)%Q /\ (0 <= 0)%Q /\
  exists new : list (Z * TransactionItem.t),
    transactionItems (fst (createReceiptWithItems calm cart_return shop))
    = transactionItems shop ++ new /\
    (0 <= Qmax 0 (reduce_sum (fun row => TransactionItem.amount (snd row)) new))%Q.
Proof.
  split; [vm_compute; reflexivity|].
  apply (totals_never_negative calm cart_return shop
           (fst (createReceiptWithItems calm cart_return shop))
           {| receiptId := 1; transactionId := 1; totalAmount := 0;
              resultTax := 0 # 100; resultDiscount := 0 |}).
  vm_compute. reflexivity.
Defined.

Lemma priced_lines_nonneg (db : Db) (its : list Item) (rs : list Line) :
  Forall2 (fun it r => priceLine db it = Ok r) its rs ->
  (forall it p, In it its -> products db !! productId it = Some p ->
                (0 <= Product.mrp p)%Q /\ (0 <= Product.gst p)%Q) ->
  Forall (fun r => (0 <= lineGross r)%Q /\ (0 <= lineTax r)%Q) rs.
Proof.
  induction 1 as [|it r its rs Hr _ IH]; intros Hgoods; constructor.
  - apply priceLine_ok in Hr as (Hp & _ & _ & Hq & _ & Hg & Hx).
    destruct (Hgoods it (product r) (or_introl eq_refl) Hp) as [Hm Hgst].
    assert (Hgross : (0 <= lineGross r)%Q).
    { rewrite Hg.
      apply Qmult_le_0_compat; [exact Hm | apply Qlt_le_weak; exact Hq]. }
    split; [exact Hgross|]. rewrite Hx.
    unfold Qdiv. apply Qmult_le_0_compat; [|discriminate].
    apply Qmult_le_0_compat; [exact Hgross|].
    rewrite orZero_Qeq. exact Hgst.
  - apply IH. intros it' p Hin. apply Hgoods. right. exact Hin.
Qed.

Lemma priced_goods_totals (db : Db) (its : list Item) (d : Q) (t : Totals) :
  (forall it p, In it its -> products db !! productId it = Some p ->
                (0 <= Product.mrp p)%Q /\ (0 <= Product.gst p)%Q) ->
  computeReceiptTotals db its d = Ok t ->
  (0 <= subtotal t)%Q /\ (0 <= tax t)%Q /\
  (discount t <= subtotal t)%Q /\
  (total t == subtotal t - discount t + tax t)%Q /\
  (tax t <= total t)%Q.
Proof.
  intros Hgoods H.
  apply computeReceiptTotals_ok in H as (Hrows & Hsub & Htax & Hd & Ht).
  apply mapM_ok in Hrows.
  pose proof (priced_lines_nonneg db its (rows t) Hrows Hgoods) as Hlines.
  assert (Hs0 : (0 <= subtotal t)%Q).
  { rewrite Hsub. apply reduce_sum_nonneg.
    eapply Forall_impl; [exact Hlines|]. intros r [? _]. assumption. }
  assert (Ht0 : (0 <= tax t)%Q).
  { rewrite Htax. apply reduce_sum_nonneg.
    eapply Forall_impl; [exact Hlines|]. intros r [_ ?]. assumption. }
  assert (Hds : (discount t <= subtotal t)%Q).
  { rewrite Hd at 1. apply Q.max_lub; [exact Hs0 | apply Q.le_min_r]. }
  assert (Htot : (total t == subtotal t - discount t + tax t)%Q).
  { rewrite Ht at 1. apply Q.max_r. lra. }
  repeat split; try assumption. rewrite Htot. lra.
Qed.

(** X6. After a checkout that succeeded on a cart whose products have
    prices and tax rates that are not negative: the subtotal (the sum of
    the amounts of the new line items) and the tax are not negative, the
    discount is at most the subtotal, and the total is
    [subtotal - discount + tax], which is at least the tax: the discount
    never reaches into the tax. *)
Theorem totals_of_priced_goods (env : Env) (args : CheckoutArgs) (db db' : Db)
    (res : CheckoutResult) :
  (forall it p, In it (items args) -> products db !! productId it = Some p ->
                (0 <= Product.mrp p)%Q /\ (0 <= Product.gst p)%Q) ->
  createReceiptWithItems env args db = (db', Ok res) ->
  exists new : list (Z * TransactionItem.t),
    transactionItems db' = transactionItems db ++ new /\
    let subtotal :=
      reduce_sum (fun row => TransactionItem.amount (snd row)) new in
    (0 <= subtotal)%Q /\ (0 <= resultTax res)%Q /\
    (resultDiscount res <= subtotal)%Q /\
    (totalAmount res == subtotal - resultDiscount res + resultTax res)%Q /\
    (resultTax res <= totalAmount res)%Q.
Proof.
  intros Hgoods H. apply createReceiptWithItems_ok in H as (t & Ht & C).
  destruct (committed_subtotal _ _ _ _ _ _ Ht C) as (new & Hnew & Hsum).
  exists new. split; [exact Hnew|]. cbv zeta.
  rewrite Hsum, (c_result _ _ _ _ _ _ C).
  cbn [resultDiscount totalAmount resultTax].
  exact (priced_goods_totals _ _ _ _ Hgoods Ht).
Qed.

Lemma totals_of_priced_goods_witness :
  createReceiptWithItems calm cart_two_lines shop
  = (shop_after_two_lines, Ok sale_two_lines) /\
  exists new : list (Z * TransactionItem.t),
    transactionItems shop_after_two_lines = transactionItems shop ++ new /\
    (resultTax sale_two_lines <= totalAmount sale_two_lines)%Q.
Proof.
  split; [vm_compute; reflexivity|].
  destruct (totals_of_priced_goods calm cart_two_lines shop
              shop_after_two_lines sale_two_lines)
    as (new & Hnew & _ & _ & _ & _ & Htax).
  - intros it p [<-|[<-|[]]] Hp; vm_compute in Hp; injection Hp as <-;
      split; vm_compute; discriminate.
  - vm_compute. reflexivity.
  - exists new. split; assumption.
Defined.

Lemma mapM_app {A B : Type} (f : A -> Result B) (xs1 xs2 : list A)
    (ys1 ys2 : list B) :
  mapM f xs1 = Ok ys1 -> mapM f xs2 = Ok ys2 ->
  mapM f (xs1 ++ xs2) = Ok (ys1 ++ ys2).
Proof.
  revert ys1. induction xs1 as [|x xs1 IH]; intros ys1 H1 H2; simpl in *.
  - injection H1 as <-. exact H2.
  - destruct (f x) as [y|e]; [|discriminate].
    destruct (mapM f xs1) as [ys|e]; [|discriminate].
    injection H1 as <-. rewrite (IH ys eq_refl H2). reflexivity.
Qed.

(** X7. Two carts that price on a store price together on it, with any
    requested discount: the lines of the joint cart are the lines of the
    first followed by those of the second, and its subtotal and its tax
    are those of the first cart with the lines of the second added on, one
    after the other in the order of the cart. *)
Theorem totals_of_joined_carts (db : Db) (its1 its2 : list Item) (d1 d2 d : Q)
    (t1 t2 : Totals) :
  computeReceiptTotals db its1 d1 = Ok t1 ->
  computeReceiptTotals db its2 d2 = Ok t2 ->
  exists t,
    computeReceiptTotals db (its1 ++ its2) d = Ok t /\
    rows t = rows t1 ++ rows t2 /\
    subtotal t
    = fold_left (fun acc r => (acc + lineGross r)%Q) (rows t2) (subtotal t1) /\
    tax t
    = fold_left (fun acc r => (acc + lineTax r)%Q) (rows t2) (tax t1).
Proof.
  intros H1 H2.
  apply computeReceiptTotals_ok in H1 as (R1 & S1 & T1 & _).
  apply computeReceiptTotals_ok in H2 as (R2 & _).
  unfold computeReceiptTotals. rewrite (mapM_app _ _ _ _ _ R1 R2).
  eexists. split; [reflexivity|]. simpl.
  rewrite S1, T1. unfold reduce_sum. rewrite !fold_left_app.
  repeat split; reflexivity.
Qed.

Lemma totals_of_joined_carts_witness :
  exists t,
    computeReceiptTotals shop (items cart_two_lines ++ items cart_return) 0
    = Ok t /\
    length (rows t) = 3%nat.
Proof.
  edestruct (totals_of_joined_carts shop (items cart_two_lines)
               (items cart_return) 20 5 0)
    as (t & Ht & Hrows & _);
    [vm_compute; reflexivity | vm_compute; reflexivity |].
  exists t. split; [exact Ht|]. rewrite Hrows. reflexivity.
Defined.

(** ** More on the checkout *)

Lemma last_line_In (pid : Z) (rs : list Line) (r : Line) :
  last_line pid rs = Some r -> In r rs.
Proof.
  induction rs as [|r0 rs IH]; simpl; [discriminate|].
  destruct (last_line pid rs) as [r'|].
  - intros [= <-]. right. apply IH. reflexivity.
  - destruct (Z.eqb (product_id r0) pid); [|discriminate].
    intros [= <-]. left. reflexivity.
Qed.

Lemma priced_line_In (db : Db) (its : list Item) (rs : list Line) (r : Line) :
  Forall2 (fun it r => priceLine db it = Ok r) its rs -> In r rs ->
  exists it, In it its /\ priceLine db it = Ok r.
Proof.
  induction 1 as [|it r0 its rs H0 _ IH]; intros Hin; [destruct Hin|].
  destruct Hin as [<-|Hin].
  - exists it. split; [left; reflexivity | exact H0].
  - destruct (IH Hin) as (it' & Hin' & H'). exists it'.
    split; [right; exact Hin' | exact H'].
Qed.

(** X8. A checkout that succeeded leaves no product with a negative stock
    that did not have one before, also when a product is on several lines
    of the cart: a product sold is left with the stock read by the pricing
    stage less the quantity of one line, which the stock check bounded. *)
Theorem stock_stays_nonnegative (env : Env) (args : CheckoutArgs) (db db' : Db)
    (res : CheckoutResult) (pid : Z) (p' : Product.t) :
  createReceiptWithItems env args db = (db', Ok res) ->
  (forall p, products db !! pid = Some p -> (0 <= Product.quantity p)%Q) ->
  products db' !! pid = Some p' ->
  (0 <= Product.quantity p')%Q.
Proof.
  intros H Hpre Hp'. apply createReceiptWithItems_ok in H as (t & Ht & C).
  pose proof (c_products _ _ _ _ _ _ C pid) as Hp.
  destruct (last_line pid (rows t)) as [r|] eqn:El.
  - destruct Hp as (at_ & Hp). rewrite Hp' in Hp.
    destruct (products db !! pid) as [p|]; [|discriminate].
    injection Hp as ->. simpl.
    apply computeReceiptTotals_ok in Ht as (Hrows & _).
    apply mapM_ok in Hrows.
    destruct (priced_line_In _ _ _ _ Hrows (last_line_In _ _ _ El))
      as (it & _ & Hr).
    apply priceLine_ok in Hr as (_ & _ & -> & _ & Hle & _). lra.
  - apply Hpre. rewrite <- Hp. exact Hp'.
Qed.

Lemma stock_stays_nonnegative_witness :
  createReceiptWithItems calm cart_two_lines shop
  = (shop_after_two_lines, Ok sale_two_lines) /\
  (0 <= Product.quantity
          (Product.set_stock (10 - 5) 1007
             (sample_product "Rice" 10 10 0)))%Q.
Proof.
  split; [vm_compute; reflexivity|].
  apply (stock_stays_nonnegative calm cart_two_lines shop shop_after_two_lines
           sale_two_lines 1).
  - vm_compute. reflexivity.
  - intros p Hp. vm_compute in Hp. injection Hp as <-. vm_compute. discriminate.
  - vm_compute. reflexivity.
Defined.

(** X9. The payment split is not reconciled with the total: a checkout
    that succeeded succeeds with the same result whatever split is sent
    with it. *)
Theorem payment_split_not_reconciled (env : Env) (args : CheckoutArgs)
    (db db' : Db) (res : CheckoutResult) (split : PaymentSplit) :
  createReceiptWithItems env args db = (db', Ok res) ->
  exists db'',
    createReceiptWithItems env (set_paymentSplit split args) db = (db'', Ok res).
Proof.
  intros H. apply createReceiptWithItems_ok in H as (t & Ht & C).
  destruct (createReceiptWithItems_succeeds env (set_paymentSplit split args)
              db t) as (db'' & E).
  - exact (c_no_fault _ _ _ _ _ _ C).
  - exact (c_actor _ _ _ _ _ _ C).
  - exact Ht.
  - exact (c_receipt_fresh _ _ _ _ _ _ C).
  - exists db''. rewrite E, (c_result _ _ _ _ _ _ C). reflexivity.
Qed.

Lemma payment_split_not_reconciled_witness :
  createReceiptWithItems calm cart_two_lines shop
  = (shop_after_two_lines, Ok sale_two_lines) /\
  exists db'',
    createReceiptWithItems calm
      (set_paymentSplit {| cashAmt := -1; upiAmt := 0; cardAmt := 1000000 |}
                        cart_two_lines) shop
    = (db'', Ok sale_two_lines).
Proof.
  split; [vm_compute; reflexivity|].
  apply (payment_split_not_reconciled calm cart_two_lines shop
           shop_after_two_lines).
  vm_compute. reflexivity.
Defined.

Lemma Forall_through_map {A B C : Type} (P : C -> Prop) (f : A -> C)
    (g : B -> C) (xs : list A) (ys : list B) :
  map f xs = map g ys -> Forall (fun y => P (g y)) ys ->
  Forall (fun x => P (f x)) xs.
Proof.
  revert ys. induction xs as [|x xs IH]; intros [|y ys] Hm Hys;
    try discriminate; constructor.
  - injection Hm as -> _. inversion Hys. assumption.
  - injection Hm as _ Hm. inversion Hys; subst. eapply IH; eassumption.
Qed.

Lemma committed_product_present (env : Env) (args : CheckoutArgs)
    (db db' : Db) (res : CheckoutResult) (t : Totals) (pid : Z) :
  Committed env args db db' res t ->
  is_Some (products db !! pid) -> is_Some (products db' !! pid).
Proof.
  intros C [p Hp]. pose proof (c_products _ _ _ _ _ _ C pid) as H.
  destruct (last_line pid (rows t)).
  - destruct H as (at_ & ->). rewrite Hp. simpl. eauto.
  - rewrite H, Hp. eauto.
Qed.

Lemma createReceiptWithItems_consistent (env : Env) (args : CheckoutArgs)
    (db db' : Db) (r : Result CheckoutResult) :
  consistent db ->
  createReceiptWithItems env args db = (db', r) ->
  consistent db'.
Proof.
  intros K H. destruct r as [res|e].
  2:{ apply createReceiptWithItems_err in H. subst. exact K. }
  apply createReceiptWithItems_ok in H as (t & Ht & C).
  pose proof (computeReceiptTotals_ok _ _ _ _ Ht) as (Hrows & _).
  apply mapM_ok in Hrows.
  assert (Hlines : Forall (fun l => is_Some (products db !! product_id l))
                          (rows t)).
  { clear -Hrows. induction Hrows as [|it l its ls Hl _ IH]; constructor;
      [|exact IH].
    apply priceLine_ok in Hl as (Hp & -> & _). rewrite Hp. eauto. }
  assert (Htx : forall k, is_Some (transactions db !! k) ->
                          is_Some (transactions db' !! k)).
  { intros k Hk. rewrite (c_transactions _ _ _ _ _ _ C), lookup_insert.
    case_decide; eauto. }
  assert (Hrc : forall k, is_Some (receipts db !! k) ->
                          is_Some (receipts db' !! k)).
  { intros k Hk. rewrite (c_receipts _ _ _ _ _ _ C), lookup_insert.
    case_decide; eauto. }
  constructor.
  - intros id rc. rewrite (c_receipts _ _ _ _ _ _ C), (c_users _ _ _ _ _ _ C),
      lookup_insert.
    case_decide.
    + intros [= <-]. exact (c_actor _ _ _ _ _ _ C).
    + apply (fk_receipts _ K).
  - intros id tx. rewrite (c_transactions _ _ _ _ _ _ C),
      (c_users _ _ _ _ _ _ C), lookup_insert.
    case_decide.
    + intros [= <-]. exact (c_actor _ _ _ _ _ _ C).
    + apply (fk_transactions _ K).
  - destruct (c_transactionItems _ _ _ _ _ _ C) as (new & -> & Hmap).
    apply Forall_app. split.
    + eapply Forall_impl; [exact (fk_transactionItems _ K)|].
      intros row [Ha Hb]. split; [apply Htx; exact Ha|].
      eapply committed_product_present; eassumption.
    + apply (Forall_through_map
               (fun v => is_Some (transactions db'
                                    !! TransactionItem.transactionId v) /\
                         is_Some (products db' !! TransactionItem.productId v))
               snd _ _ _ Hmap).
      eapply Forall_impl; [exact Hlines|]. intros l Hl. simpl. split.
      * rewrite (c_transactions _ _ _ _ _ _ C), lookup_insert_eq. eauto.
      * eapply committed_product_present; eassumption.
  - destruct (c_productLogs _ _ _ _ _ _ C) as (new & -> & Hmap).
    apply Forall_app. split.
    + eapply Forall_impl; [exact (fk_productLogs _ K)|].
      intros row [Ha Hb]. split.
      * eapply committed_product_present; eassumption.
      * intros rid Hrid. apply Hrc, Hb, Hrid.
    + apply (Forall_through_map
               (fun v => is_Some (products db' !! ProductLog.productId v) /\
                         forall rid, ProductLog.receiptId v = Some rid ->
                                     is_Some (receipts db' !! rid))
               snd _ _ _ Hmap).
      eapply Forall_impl; [exact Hlines|]. intros l Hl. simpl. split.
      * eapply committed_product_present; eassumption.
      * intros rid [= <-].
        rewrite (c_receipts _ _ _ _ _ _ C), lookup_insert_eq. eauto.
  - intros id s u. rewrite (c_storeSettings _ _ _ _ _ _ C),
      (c_users _ _ _ _ _ _ C). apply (fk_storeSettings _ K).
Qed.

(** X10. The checkout keeps the references of the ledger: on a store
    where every receipt and transaction names a user, every line item a
    transaction and a product, and every log entry a product and (when it
    names one) a receipt, the store it leaves, on success and on failure,
    is such a store again. *)
Theorem checkout_keeps_references (env : Env) (args : CheckoutArgs)
    (db db' : Db) (r : Result CheckoutResult) :
  consistent db ->
  createReceiptWithItems env args db = (db', r) ->
  consistent db'.
Proof. apply createReceiptWithItems_consistent. Qed.

Lemma shop_consistent : consistent shop.
Proof.
  constructor.
  - intros id r H. vm_compute in H. discriminate.
  - intros id t H. vm_compute in H. discriminate.
  - constructor.
  - constructor.
  - intros id s u Hs Hu.
    destruct (decide (id = 1)) as [->|Hne].
    + vm_compute in Hs. injection Hs as <-. injection Hu as <-.
      vm_compute. eauto.
    + unfold shop in Hs. simpl in Hs.
      rewrite lookup_singleton_ne in Hs by congruence. discriminate.
Qed.

Lemma checkout_keeps_references_witness : consistent shop_after_two_lines.
Proof.
  apply (checkout_keeps_references calm cart_two_lines shop
           shop_after_two_lines (Ok sale_two_lines)).
  - exact shop_consistent.
  - vm_compute. reflexivity.
Defined.

(** ** Reading the log of a sale *)

Lemma filter_none {A : Type} (f : A -> bool) (l : list A) :
  Forall (fun x => f x = false) l -> List.filter f l = [].
Proof.
  induction 1 as [|x l Hx _ IH]; simpl; [reflexivity|].
  rewrite Hx. exact IH.
Qed.

Lemma filter_all {A : Type} (f : A -> bool) (l : list A) :
  Forall (fun x => f x = true) l -> List.filter f l = l.
Proof.
  induction 1 as [|x l Hx _ IH]; simpl; [reflexivity|].
  rewrite Hx, IH. reflexivity.
Qed.

(** X11. On a store whose log entries reference existing receipts, the log
    entries [logs:getReceiptLogs] returns for the receipt of a checkout
    that succeeded are those of that sale and no others: one per requested
    item, in the order of the cart, of type "sale", with the item's product
    and quantity and the date that is stored on the receipt. *)
Theorem receipt_logs_of_a_sale (env : Env) (args : CheckoutArgs) (db db' : Db)
    (res : CheckoutResult) :
  consistent db ->
  createReceiptWithItems env args db = (db', Ok res) ->
  exists rc : Receipt.t,
    receipts db' !! receiptId res = Some rc /\
    Forall2
      (fun it row =>
         ProductLog.productId (snd row) = productId it /\
         ProductLog.quantity (snd row) = qty it /\
         ProductLog.type (snd row) = "sale"%string /\
         ProductLog.datetime (snd row) = Receipt.receiptDate rc)
      (items args) (logs_getReceiptLogs (receiptId res) db').
Proof.
  intros K H. apply createReceiptWithItems_ok in H as (t & Ht & C).
  destruct (c_productLogs _ _ _ _ _ _ C) as (new & Hlogs & Hmap).
  exists (receiptValues args t). split.
  { rewrite (c_receipts _ _ _ _ _ _ C), (c_result _ _ _ _ _ _ C). simpl.
    apply lookup_insert_eq. }
  unfold logs_getReceiptLogs.
  rewrite Hlogs, List.filter_app, (c_result _ _ _ _ _ _ C). simpl.
  rewrite filter_none, filter_all, app_nil_l.
  - apply computeReceiptTotals_ok in Ht as (Hrows & _). apply mapM_ok in Hrows.
    eapply Forall2_through_map; [|exact Hrows|exact Hmap].
    intros it l row Hl ->.
    apply priceLine_ok in Hl as (_ & Hid & Hq & _). simpl.
    repeat split; assumption.
  - apply List.Forall_forall. intros row Hin.
    apply (List.in_map snd) in Hin. rewrite Hmap in Hin.
    apply in_map_iff in Hin as (l & Hl & _).
    unfold logs_receipt. rewrite <- Hl. simpl.
    apply bool_decide_eq_true. reflexivity.
  - eapply Forall_impl; [exact (fk_productLogs _ K)|].
    intros row [_ Hrc]. unfold logs_receipt.
    apply bool_decide_eq_false. intros Hrid.
    destruct (Hrc _ Hrid) as [rc Hsome].
    rewrite (c_receipt_fresh _ _ _ _ _ _ C) in Hsome. discriminate.
Qed.

Lemma receipt_logs_of_a_sale_witness :
  createReceiptWithItems calm cart_two_lines shop
  = (shop_after_two_lines, Ok sale_two_lines) /\
  length (logs_getReceiptLogs 1 shop_after_two_lines) = 2%nat.
Proof.
  split; [vm_compute; reflexivity|].
  destruct (receipt_logs_of_a_sale calm cart_two_lines shop
              shop_after_two_lines sale_two_lines shop_consistent)
    as (rc & _ & H); [vm_compute; reflexivity|].
  apply Forall2_length in H. symmetry. exact H.
Defined.

(** ** The legacy receipt handlers and the checkout *)

(** A store whose [receipts] table holds a row under the id the next
    transaction will get refuses every checkout. *)
Lemma checkout_blocked (env : Env) (args : CheckoutArgs) (db : Db) :
  is_Some (receipts db !! next_transaction_id db) ->
  exists e, createReceiptWithItems env args db = (db, Err e).
Proof.
  intros [rc Hrc].
  destruct (createReceiptWithItems env args db) as [db' [res|e]] eqn:E.
  - apply createReceiptWithItems_ok in E as (t & _ & C).
    rewrite (c_receipt_fresh _ _ _ _ _ _ C) in Hrc. discriminate.
  - exists e. apply createReceiptWithItems_err in E as ->. reflexivity.
Qed.

(** X12. [receipts:add] and the checkout do not compose.  On a store where
    the next receipt id is the next transaction id (as on a new store), a
    [receipts:add] in the name of an existing user stores its row under
    that id, and from then on every checkout, whatever its cart and its
    user, fails and leaves the store as it is: the id of its transaction
    is taken in [receipts], and the rollback gives the same id to the
    next attempt. *)
Theorem receipts_add_blocks_checkout (env : Env) (args : ReceiptsAddArgs)
    (db : Db) :
  in_step db ->
  is_Some (users db !! add_createdBy args) ->
  io_fault env 0 = false ->
  exists db1,
    receipts_add env args db = (db1, Replied (next_transaction_id db)) /\
    forall env' cargs,
      exists e, createReceiptWithItems env' cargs db1 = (db1, Err e).
Proof.
  intros Hstep Hu Hio. apply is_present_true in Hu.
  unfold receipts_add, handle, bind.
  assert (Hrun : forall d,
    exists db1,
      run env (insert_receipts_auto
                 {| Receipt.totalAmount := add_totalAmount args;
                    Receipt.tax := add_tax args;
                    Receipt.paymentSplit := add_paymentSplit args;
                    Receipt.discount := default 0%Q (add_discount args);
                    Receipt.receiptDate := d;
                    Receipt.createdBy := add_createdBy args |}) (db, O)
      = ((db1, 1%nat), Ok (next_transaction_id db)) /\
      is_Some (receipts db1 !! next_transaction_id db1)).
  { intros d. eexists. unfold run, insert_receipts_auto. simpl.
    rewrite Hio, Hu. rewrite Hstep. split; [reflexivity|].
    simpl. unfold next_transaction_id at 1. simpl.
    fold (next_transaction_id db). rewrite lookup_insert_eq. eauto. }
  destruct (add_receiptDate args) as [d|].
  - unfold ret. cbv beta iota.
    destruct (Hrun d) as (db1 & -> & Hblocked).
    exists db1. split; [reflexivity|].
    intros env' cargs. apply checkout_blocked. exact Hblocked.
  - unfold newDate. cbv beta iota.
    destruct (Hrun (clock env O)) as (db1 & -> & Hblocked).
    exists db1. split; [reflexivity|].
    intros env' cargs. apply checkout_blocked. exact Hblocked.
Qed.

Lemma receipts_add_blocks_checkout_witness :
  exists db1,
    receipts_add calm
      {| add_totalAmount := 20; add_tax := 0;
         add_paymentSplit := splitToJson (cash 20);
         add_discount := None; add_receiptDate := None; add_createdBy := 1 |}
      shop = (db1, Replied 1) /\
    forall env' cargs,
      exists e, createReceiptWithItems env' cargs db1 = (db1, Err e).
Proof.
  apply (receipts_add_blocks_checkout calm
           {| add_totalAmount := 20; add_tax := 0;
              add_paymentSplit := splitToJson (cash 20);
              add_discount := None; add_receiptDate := None;
              add_createdBy := 1 |} shop).
  - vm_compute. reflexivity.
  - vm_compute. eauto.
  - reflexivity.
Defined.

Lemma max_key_insert {A : Type} (m : gmap Z A) (k : Z) (v : A) :
  m !! k = None -> max_key (<[k := v]> m) = Z.max k (max_key m).
Proof.
  intros Hk. unfold max_key.
  apply (map_fold_insert_L (fun j (_ : A) acc => Z.max j acc) 0 k v m);
    [|exact Hk].
  intros j1 j2 z1 z2 y _ _ _. lia.
Qed.

(** What a statement keeps, [run] keeps, whether the statement goes
    through or not. *)
Lemma run_preserves (P : Db -> Prop) (env : Env)
    (stmt : Db -> Result (Db * Z)) (db db' : Db) (n n' : nat) (r : Result Z) :
  (forall d d1 id, P d -> stmt d = Ok (d1, id) -> P d1) ->
  P db -> run env stmt (db, n) = ((db', n'), r) -> P db'.
Proof.
  intros Hstmt Hdb. unfold run. destruct (io_fault env n).
  - intros [= <- _ _]. exact Hdb.
  - destruct (stmt db) as [[d1 id]|e] eqn:E.
    + intros [= <- _ _]. eapply Hstmt; eassumption.
    + intros [= <- _ _]. exact Hdb.
Qed.

(** The loop does not touch the sequences of [transactions] and
    [receipts]. *)
Lemma persistLine_sequences (s : Sequences) (env : Env) (tid rd : Z)
    (sub disc : Q) (l : Line) (db db' : Db) (n n' : nat) (r : Result unit) :
  same_ledger_sequences s db ->
  persistLine env tid rd sub disc l (db, n) = ((db', n'), r) ->
  same_ledger_sequences s db'.
Proof.
  intros Hs. unfold persistLine, bind.
  destruct (run env (insert_transactionItems _) (db, n))
    as [[db1 n1] [id1|e1]] eqn:E1.
  2:{ intros [= <- _ _]. revert E1. apply run_preserves; [|exact Hs].
      intros d d1 id Hd. unfold insert_transactionItems.
      destruct (_ && _); [|discriminate]. intros [= <- _]. exact Hd. }
  assert (H1 : same_ledger_sequences s db1).
  { revert E1. apply run_preserves; [|exact Hs].
    intros d d1 id Hd. unfold insert_transactionItems.
    destruct (_ && _); [|discriminate]. intros [= <- _]. exact Hd. }
  destruct (run env (insert_productLogs _) (db1, n1))
    as [[db2 n2] [id2|e2]] eqn:E2.
  2:{ intros [= <- _ _]. revert E2. apply run_preserves; [|exact H1].
      intros d d1 id Hd. unfold insert_productLogs.
      destruct (_ && _); [|discriminate]. intros [= <- _]. exact Hd. }
  assert (H2 : same_ledger_sequences s db2).
  { revert E2. apply run_preserves; [|exact H1].
    intros d d1 id Hd. unfold insert_productLogs.
    destruct (_ && _); [|discriminate]. intros [= <- _]. exact Hd. }
  unfold newDate.
  destruct (run env (update_products _ _ _) (db2, n2))
    as [[db3 n3] [id3|e3]] eqn:E3.
  - unfold ret. intros [= <- _ _]. revert E3.
    apply run_preserves; [|exact H2].
    intros d d1 id Hd. unfold update_products. intros [= <- _]. exact Hd.
  - intros [= <- _ _]. revert E3. apply run_preserves; [|exact H2].
    intros d d1 id Hd. unfold update_products. intros [= <- _]. exact Hd.
Qed.

Lemma forEach_persistLine_sequences (s : Sequences) (env : Env) (tid rd : Z)
    (sub disc : Q) (ls : list Line) :
  forall (db db' : Db) (n n' : nat) (r : Result unit),
  same_ledger_sequences s db ->
  forEach (persistLine env tid rd sub disc) ls (db, n) = ((db', n'), r) ->
  same_ledger_sequences s db'.
Proof.
  induction ls as [|l ls IH]; intros db db' n n' r Hs; simpl.
  - unfold ret. intros [= <- _ _]. exact Hs.
  - unfold bind.
    destruct (persistLine env tid rd sub disc l (db, n))
      as [[db1 n1] [u|e]] eqn:E1.
    + apply IH. eapply persistLine_sequences; eassumption.
    + intros [= <- _ _]. eapply persistLine_sequences; eassumption.
Qed.

(** X13. The checkout keeps the two id sequences in step: on a store where
    the next receipt id is the next transaction id, it leaves, on success
    and on failure, a store where this holds again. *)
Theorem checkout_keeps_in_step (env : Env) (args : CheckoutArgs) (db db' : Db)
    (r : Result CheckoutResult) :
  in_step db ->
  createReceiptWithItems env args db = (db', r) ->
  in_step db'.
Proof.
  intros Hstep H. destruct r as [res|e].
  2:{ apply createReceiptWithItems_err in H as ->. exact Hstep. }
  pose proof (createReceiptWithItems_ok _ _ _ _ _ H) as (t & _ & C).
  assert (Hseq : same_ledger_sequences
                   {| seq_transactions := next_transaction_id db;
                      seq_receipts := Z.max (seq_receipts (sqlite_sequence db))
                                            (next_transaction_id db);
                      seq_transaction_items := 0; seq_product_logs := 0 |} db').
  { clear C. unfold createReceiptWithItems, sqlite_transaction in H.
    destruct (createReceiptWithItems_body env args (db, O))
      as [[dbb nb] [rb|eb]] eqn:B; [|discriminate].
    injection H as <- _. revert B.
    unfold createReceiptWithItems_body, bind, readDb.
    destruct (computeReceiptTotals db (items args) (discountRequested args))
      as [t0|e0]; [|discriminate].
    destruct (run env (insert_transactions _) (db, O))
      as [st1 [tid|e1]] eqn:E1; [|discriminate].
    apply run_ok in E1 as (_ & db1 & S1 & ->).
    destruct (run env (insert_receipts tid _) (db1, 1%nat))
      as [st2 [rid|e2]] eqn:E2; [|discriminate].
    apply run_ok in E2 as (_ & db2 & S2 & ->).
    destruct (forEach _ (rows t0) (db2, 2%nat)) as [[db3 n3] [u|e3]] eqn:E3;
      [|discriminate].
    unfold ret. intros [= <- _ _].
    eapply forEach_persistLine_sequences; [|exact E3].
    revert S1. unfold insert_transactions.
    destruct (is_present _ _); [|discriminate]. intros [= <- <-].
    revert S2. unfold insert_receipts. simpl.
    destruct (is_present (receipts db) _); [discriminate|].
    destruct (is_present _ _); [|discriminate]. intros [= <- _].
    split; reflexivity. }
  destruct Hseq as [Hst Hsr]. simpl in Hst, Hsr.
  unfold in_step, next_transaction_id in *.
  rewrite Hst, Hsr, (c_receipts _ _ _ _ _ _ C), (c_transactions _ _ _ _ _ _ C).
  rewrite !max_key_insert.
  - unfold next_transaction_id, next_rowid in *. lia.
  - exact (c_transaction_fresh _ _ _ _ _ _ C).
  - exact (c_receipt_fresh _ _ _ _ _ _ C).
Qed.

Lemma checkout_keeps_in_step_witness : in_step shop_after_two_lines.
Proof.
  apply (checkout_keeps_in_step calm cart_two_lines shop shop_after_two_lines
           (Ok sale_two_lines)).
  - vm_compute. reflexivity.
  - vm_compute. reflexivity.
Defined.

(** X14. The receipt of a sale with at least one line cannot be deleted
    through [receipts:delete]: the log entries of the sale reference it,
    so the handler fails and leaves the store as it is. *)
Theorem sale_receipt_cannot_be_deleted (env env' : Env) (args : CheckoutArgs)
    (db db' : Db) (res : CheckoutResult) :
  createReceiptWithItems env args db = (db', Ok res) ->
  items args <> [] ->
  exists e, receipts_delete env' (receiptId res) db' = (db', Failed e).
Proof.
  intros H Hne. apply createReceiptWithItems_ok in H as (t & Ht & C).
  unfold receipts_delete, handle, bind, run.
  destruct (io_fault env' 0); [exists IoError; reflexivity|].
  assert (Hfk : delete_receipts (receiptId res) db' = Err ForeignKeyConstraint).
  { unfold delete_receipts.
    rewrite (c_result _ _ _ _ _ _ C). simpl.
    assert (Hp : is_present (receipts db') (next_transaction_id db) = true).
    { apply is_present_true.
      rewrite (c_receipts _ _ _ _ _ _ C), lookup_insert_eq. eauto. }
    rewrite Hp. simpl.
    destruct (c_productLogs _ _ _ _ _ _ C) as (new & -> & Hmap).
    apply computeReceiptTotals_ok in Ht as (Hrows & _).
    apply mapM_ok, Forall2_length in Hrows.
    destruct new as [|row new].
    { simpl in Hmap. symmetry in Hmap. apply map_eq_nil in Hmap.
      rewrite Hmap in Hrows. destruct (items args); [congruence|discriminate]. }
    rewrite existsb_app. simpl.
    destruct (rows t) as [|l ls]; [discriminate|]. injection Hmap as Hrow _.
    unfold logs_receipt at 2. rewrite Hrow. simpl.
    rewrite bool_decide_eq_true_2 by reflexivity.
    rewrite orb_true_r. reflexivity. }
  rewrite Hfk. exists ForeignKeyConstraint. reflexivity.
Qed.

Lemma sale_receipt_cannot_be_deleted_witness :
  createReceiptWithItems calm cart_two_lines shop
  = (shop_after_two_lines, Ok sale_two_lines) /\
  exists e,
    receipts_delete calm 1 shop_after_two_lines
    = (shop_after_two_lines, Failed e).
Proof.
  split; [vm_compute; reflexivity|].
  apply (sale_receipt_cannot_be_deleted calm calm cart_two_lines shop
           shop_after_two_lines sale_two_lines).
  - vm_compute. reflexivity.
  - discriminate.
Defined.

(** ** [products:delete] *)

Lemma existsb_filter_negb {A : Type} (f : A -> bool) (l : list A) :
  existsb f (List.filter (fun x => negb (f x)) l) = false.
Proof.
  induction l as [|x l IH]; simpl; [reflexivity|].
  destruct (f x) eqn:E; simpl; [exact IH|]. rewrite E, IH. reflexivity.
Qed.

(** X15. When the store does not fail, [products:delete] always goes
    through: no reference blocks it, because it first removes the log
    entries and the line items of the product.  Afterwards the product is
    gone together with every log entry and line item that named it, the
    other rows of these tables are kept in order, and the receipts and
    transactions, with their totals, are as before. *)
Theorem products_delete_erases_history (env : Env) (id : Z) (db : Db) :
  no_fault env 0 3 ->
  exists db',
    products_delete env id db = (db', Replied tt) /\
    products db' = delete id (products db) /\
    productLogs db'
    = List.filter (fun row => negb (log_of_product id row)) (productLogs db) /\
    transactionItems db'
    = List.filter (fun row => negb (item_of_product id row))
                  (transactionItems db) /\
    receipts db' = receipts db /\ transactions db' = transactions db /\
    users db' = users db.
Proof.
  intros Hio. unfold products_delete, handle, bind.
  erewrite run_no_fault; [|apply Hio; lia|reflexivity]. cbv beta iota.
  erewrite run_no_fault; [|apply Hio; lia|reflexivity]. cbv beta iota.
  erewrite run_no_fault; [|apply Hio; lia|].
  2:{ unfold delete_products. simpl.
      rewrite !existsb_filter_negb, andb_false_r. reflexivity. }
  unfold ret. eexists. split; [reflexivity|]. repeat split.
Qed.

Lemma products_delete_erases_history_witness :
  exists db',
    products_delete calm 1 shop_after_two_lines = (db', Replied tt) /\
    products db' !! 1 = None /\
    length (productLogs db') = 1%nat /\
    length (transactionItems db') = 1%nat /\
    receipts db' = receipts shop_after_two_lines.
Proof.
  destruct (products_delete_erases_history calm 1 shop_after_two_lines)
    as (db' & E & Hp & Hl & Hi & Hr & _).
  - intros k _. reflexivity.
  - exists db'. split; [exact E|].
    rewrite Hp, Hl, Hi, Hr.
    repeat split; vm_compute; reflexivity.
Defined.

(** X16. [products:delete] is not one unit of work.  When it fails, the
    product row is still there; but if its first statement went through,
    the log entries of the product are deleted all the same. *)
Theorem products_delete_not_atomic (env : Env) (id : Z) (db db' : Db)
    (e : Error) :
  products_delete env id db = (db', Failed e) ->
  products db' = products db /\
  (io_fault env 0 = false ->
   productLogs db'
   = List.filter (fun row => negb (log_of_product id row)) (productLogs db)).
Proof.
  unfold products_delete, handle, bind.
  destruct (io_fault env 0) eqn:F0.
  { unfold run. rewrite F0. intros [= <- _].
    split; [reflexivity | discriminate]. }
  erewrite run_no_fault; [|exact F0|reflexivity]. cbv beta iota.
  destruct (io_fault env 1) eqn:F1.
  { unfold run. rewrite F1. intros [= <- _]. split; reflexivity. }
  erewrite run_no_fault; [|exact F1|reflexivity]. cbv beta iota.
  destruct (io_fault env 2) eqn:F2.
  { unfold run. rewrite F2. intros [= <- _]. split; reflexivity. }
  erewrite run_no_fault; [|exact F2|].
  2:{ unfold delete_products. simpl.
      rewrite !existsb_filter_negb, andb_false_r. reflexivity. }
  unfold ret. discriminate.
Qed.

Lemma products_delete_not_atomic_witness :
  snd (products_delete second_fails 1 shop_after_two_lines) = Failed IoError /\
  products (fst (products_delete second_fails 1 shop_after_two_lines))
  = products shop_after_two_lines /\
  length (productLogs shop_after_two_lines) = 2%nat /\
  length (productLogs (fst (products_delete second_fails 1
                              shop_after_two_lines))) = 1%nat.
Proof.
  split; [vm_compute; reflexivity|].
  destruct (products_delete_not_atomic second_fails 1 shop_after_two_lines
              (fst (products_delete second_fails 1 shop_after_two_lines))
              IoError) as [Hp Hlogs].
  - vm_compute. reflexivity.
  - split; [exact Hp|]. split; [vm_compute; reflexivity|].
    rewrite (Hlogs eq_refl). vm_compute. reflexivity.
Defined.

(** ** The references of the ledger under the other handlers *)

Lemma delete_productLogs_of_consistent (id : Z) (d d1 : Db) (k : Z) :
  consistent d -> delete_productLogs_of id d = Ok (d1, k) -> consistent d1.
Proof.
  intros K [= <- _]. constructor; simpl; try apply K.
  eapply incl_Forall; [|exact (fk_productLogs _ K)].
  apply incl_filter.
Qed.

Lemma delete_transactionItems_of_consistent (id : Z) (d d1 : Db) (k : Z) :
  consistent d -> delete_transactionItems_of id d = Ok (d1, k) -> consistent d1.
Proof.
  intros K [= <- _]. constructor; simpl; try apply K.
  eapply incl_Forall; [|exact (fk_transactionItems _ K)].
  apply incl_filter.
Qed.

Lemma existsb_false_Forall {A : Type} (f : A -> bool) (l : list A) :
  existsb f l = false -> Forall (fun x => f x = false) l.
Proof.
  induction l as [|x l IH]; simpl; [constructor|].
  intros H. apply orb_false_elim in H as [Hx Hl].
  constructor; [exact Hx | apply IH; exact Hl].
Qed.

Lemma delete_products_consistent (id : Z) (d d1 : Db) (k : Z) :
  consistent d -> delete_products id d = Ok (d1, k) -> consistent d1.
Proof.
  intros K. unfold delete_products.
  destruct (is_present (products d) id) eqn:Ep.
  - destruct (existsb (item_of_product id) (transactionItems d)) eqn:Ei;
      [discriminate|].
    destruct (existsb (log_of_product id) (productLogs d)) eqn:El;
      [discriminate|].
    intros [= <- _]. constructor; simpl; try apply K.
    + pose proof (proj2 (Forall_and _ _)
                    (conj (existsb_false_Forall _ _ Ei)
                          (fk_transactionItems _ K))) as Hk.
      eapply Forall_impl; [exact Hk|].
      intros row [Hi [Ha Hb]]. split; [exact Ha|].
      unfold item_of_product in Hi. apply Z.eqb_neq in Hi.
      rewrite lookup_delete_ne by congruence. exact Hb.
    + pose proof (proj2 (Forall_and _ _)
                    (conj (existsb_false_Forall _ _ El)
                          (fk_productLogs _ K))) as Hk.
      eapply Forall_impl; [exact Hk|].
      intros row [Hl [Ha Hb]]. split; [|exact Hb].
      unfold log_of_product in Hl. apply Z.eqb_neq in Hl.
      rewrite lookup_delete_ne by congruence. exact Ha.
  - apply is_present_false in Ep. simpl.
    intros [= <- _]. constructor; simpl; try apply K.
    + eapply Forall_impl; [exact (fk_transactionItems _ K)|].
      intros row [Ha [p Hb]]. split; [exact Ha|].
      rewrite lookup_delete_ne; [eauto|]. intros E. rewrite <- E in Hb.
      congruence.
    + eapply Forall_impl; [exact (fk_productLogs _ K)|].
      intros row [[p Ha] Hb]. split; [|exact Hb].
      rewrite lookup_delete_ne; [eauto|]. intros E. rewrite <- E in Ha.
      congruence.
Qed.

Lemma insert_receipts_auto_consistent (v : Receipt.t) (d d1 : Db) (k : Z) :
  consistent d -> insert_receipts_auto v d = Ok (d1, k) -> consistent d1.
Proof.
  intros K. unfold insert_receipts_auto.
  destruct (is_present (users d) (Receipt.createdBy v)) eqn:Eu; [|discriminate].
  apply is_present_true in Eu.
  intros [= <- _]. constructor; simpl; try apply K.
  - intros id r. rewrite lookup_insert. case_decide.
    + intros [= <-]. exact Eu.
    + apply (fk_receipts _ K).
  - eapply Forall_impl; [exact (fk_productLogs _ K)|].
    intros row [Ha Hb]. split; [exact Ha|].
    intros rid Hrid. rewrite lookup_insert. case_decide; eauto.
Qed.

Lemma delete_receipts_consistent (id : Z) (d d1 : Db) (k : Z) :
  consistent d -> delete_receipts id d = Ok (d1, k) -> consistent d1.
Proof.
  intros K. unfold delete_receipts.
  destruct (is_present (receipts d) id) eqn:Ep; simpl.
  - destruct (existsb (logs_receipt id) (productLogs d)) eqn:El;
      [discriminate|].
    intros [= <- _]. constructor; simpl; try apply K.
    + intros id' r. rewrite lookup_delete. case_decide; [discriminate|].
      apply (fk_receipts _ K).
    + pose proof (proj2 (Forall_and _ _)
                    (conj (existsb_false_Forall _ _ El)
                          (fk_productLogs _ K))) as Hk.
      eapply Forall_impl; [exact Hk|].
      intros row [Hl [Ha Hb]]. split; [exact Ha|].
      intros rid Hrid. unfold logs_receipt in Hl.
      apply bool_decide_eq_false in Hl.
      rewrite lookup_delete_ne by congruence. eauto.
  - apply is_present_false in Ep.
    intros [= <- _]. constructor; simpl; try apply K.
    + intros id' r. rewrite lookup_delete. case_decide; [discriminate|].
      apply (fk_receipts _ K).
    + eapply Forall_impl; [exact (fk_productLogs _ K)|].
      intros row [Ha Hb]. split; [exact Ha|].
      intros rid Hrid. destruct (Hb rid Hrid) as [rc Hrc].
      rewrite lookup_delete_ne; [eauto|]. intros E. rewrite <- E in Hrc.
      congruence.
Qed.

(** X17. [receipts:add], [receipts:delete] and [products:delete] keep the
    references of the ledger, whether they go through or fail, and also
    when [products:delete] stops after its first or second statement. *)
Theorem handlers_keep_references (env : Env) (db : Db) :
  consistent db ->
  (forall args, consistent (fst (receipts_add env args db))) /\
  (forall id, consistent (fst (receipts_delete env id db))) /\
  (forall id, consistent (fst (products_delete env id db))).
Proof.
  intros K. split; [|split].
  - intros args. unfold receipts_add, handle, bind.
    destruct (add_receiptDate args) as [d|]; [unfold ret|unfold newDate];
      cbv beta iota;
      match goal with
      | |- context [run env ?stmt (db, O)] =>
          destruct (run env stmt (db, O)) as [[d1 n1] r] eqn:E
      end;
      (assert (consistent d1) as K1
         by (revert E; apply run_preserves;
             [intros ? ? ?; apply insert_receipts_auto_consistent | exact K]));
      destruct r; exact K1.
  - intros id. unfold receipts_delete, handle, bind.
    destruct (run env (delete_receipts id) (db, O)) as [[d1 n1] r] eqn:E.
    assert (consistent d1) as K1
      by (revert E; apply run_preserves;
          [intros ? ? ?; apply delete_receipts_consistent | exact K]).
    destruct r; exact K1.
  - intros id. unfold products_delete, handle, bind.
    destruct (run env (delete_productLogs_of id) (db, O))
      as [[d1 n1] r1] eqn:E1.
    assert (consistent d1) as K1
      by (revert E1; apply run_preserves;
          [intros ? ? ?; apply delete_productLogs_of_consistent | exact K]).
    destruct r1; [|exact K1].
    destruct (run env (delete_transactionItems_of id) (d1, n1))
      as [[d2 n2] r2] eqn:E2.
    assert (consistent d2) as K2
      by (revert E2; apply run_preserves;
          [intros ? ? ?; apply delete_transactionItems_of_consistent | exact K1]).
    destruct r2; [|exact K2].
    destruct (run env (delete_products id) (d2, n2)) as [[d3 n3] r3] eqn:E3.
    assert (consistent d3) as K3
      by (revert E3; apply run_preserves;
          [intros ? ? ?; apply delete_products_consistent | exact K2]).
    destruct r3; exact K3.
Qed.

Lemma handlers_keep_references_witness :
  consistent (fst (products_delete second_fails 1 shop_after_two_lines)).
Proof.
  assert (consistent shop_after_two_lines) as K.
  { apply (createReceiptWithItems_consistent calm cart_two_lines shop
             shop_after_two_lines (Ok sale_two_lines) shop_consistent).
    vm_compute. reflexivity. }
  apply (proj2 (proj2 (handlers_keep_references second_fails
                         shop_after_two_lines K))).
Defined.

(** ** Settings *)

Lemma upsert_entries_ok (env : Env) (now : Z) (entries : list (string * string)) :
  forall (n : nat) (settings : gmap string Setting.t),
  no_fault env n (n + length entries) ->
  upsert_entries env now n entries settings
  = (fold_left (fun s kv => upsert_setting now (fst kv) (snd kv) s)
               entries settings, Ok tt).
Proof.
  induction entries as [|[k v] entries IH]; intros n settings Hf;
    [reflexivity|].
  cbn [upsert_entries fold_left fst snd length] in *.
  rewrite (Hf n) by lia. apply IH.
  intros i Hi. apply Hf. lia.
Qed.

Lemma upsert_fold_other (now : Z) (entries : list (string * string)) (k : string) :
  forall settings : gmap string Setting.t,
  ~ In k (map fst entries) ->
  fold_left (fun s kv => upsert_setting now (fst kv) (snd kv) s)
            entries settings !! k
  = settings !! k.
Proof.
  induction entries as [|[k' v'] entries IH]; intros settings Hk;
    [reflexivity|].
  cbn [fold_left fst snd map] in *. rewrite IH.
  - unfold upsert_setting. apply lookup_insert_ne.
    intros ->. apply Hk. left. reflexivity.
  - intros Hin. apply Hk. right. exact Hin.
Qed.

Lemma upsert_fold_written (now : Z) (entries : list (string * string))
    (k v : string) :
  forall settings : gmap string Setting.t,
  List.NoDup (map fst entries) ->
  In (k, v) entries ->
  fold_left (fun s kv => upsert_setting now (fst kv) (snd kv) s)
            entries settings !! k
  = Some {| Setting.value := v; Setting.updatedAt := timestamp now |}.
Proof.
  induction entries as [|[k' v'] entries IH]; intros settings Hnd Hin;
    [destruct Hin|].
  cbn [fold_left fst snd map] in *.
  apply List.NoDup_cons_iff in Hnd as [Hk' Hnd].
  destruct Hin as [[= -> ->]|Hin].
  - rewrite upsert_fold_other by exact Hk'.
    unfold upsert_setting. apply lookup_insert_eq.
  - apply IH; assumption.
Qed.

(** X18. For a caller whose user row has the role admin (whether the
    account is active is not looked at), when no statement fails for a
    reason of the store's own, [settings:setMany] answers ok; every key of
    [values] then has the given value and the whole seconds of the time of
    the call, and any other key the row it had.  [settings:getAll] then
    returns the given value for every key given but ["__proto__"], and for
    the keys not given what it returned before. *)
Theorem settings_setMany_then_getAll (env : Env) (currentUserId : Z)
    (values : list (string * string)) (db : Db)
    (settings : gmap string Setting.t) (u : User.t) :
  users db !! currentUserId = Some u ->
  User.role u = "admin"%string ->
  no_fault env 0 (length values) ->
  List.NoDup (map fst values) ->
  let after := settings_setMany env currentUserId values db settings in
  snd after = Done tt /\
  (forall k v, In (k, v) values ->
     fst after !! k
     = Some {| Setting.value := v;
               Setting.updatedAt := timestamp (clock env 0) |}) /\
  (forall k, ~ In k (map fst values) -> fst after !! k = settings !! k) /\
  (forall k v, In (k, v) values -> k <> "__proto__"%string ->
     settings_getAll (fst after) !! k = Some v) /\
  (forall k, ~ In k (map fst values) ->
     settings_getAll (fst after) !! k = settings_getAll settings !! k).
Proof.
  intros Hu Hr Hf Hnd. unfold settings_setMany, assertAdmin. rewrite Hu, Hr.
  cbn [String.eqb Ascii.eqb Bool.eqb]. cbv zeta.
  rewrite upsert_entries_ok by exact Hf. cbn [fst snd].
  split; [reflexivity|]. split; [|split; [|split]].
  - intros k v Hin. apply upsert_fold_written; assumption.
  - intros k Hk. apply upsert_fold_other. exact Hk.
  - intros k v Hin Hp. unfold settings_getAll.
    rewrite lookup_fmap, lookup_delete_ne by congruence.
    rewrite (upsert_fold_written _ _ k v) by assumption. reflexivity.
  - intros k Hk. unfold settings_getAll. rewrite !lookup_fmap.
    destruct (decide (k = "__proto__"%string)) as [->|Hp].
    + rewrite !lookup_delete_eq. reflexivity.
    + rewrite !lookup_delete_ne by congruence.
      rewrite upsert_fold_other by exact Hk. reflexivity.
Qed.

Lemma settings_setMany_then_getAll_witness :
  (users office !! 3 = Some {| User.name := "owner"%string;
                               User.password := toy_hash "secret" 7;
                               User.role := "admin"%string;
                               User.active := false; User.createdAt := 0 |}) /\
  settings_getAll
    (fst (settings_setMany calm 3 [ ("currency"%string, "INR"%string) ]
            office
            {[ "currency"%string :=
                 {| Setting.value := "USD"%string; Setting.updatedAt := 1 |};
               "theme"%string :=
                 {| Setting.value := "dark"%string; Setting.updatedAt := 2 |} ]}))
    !! "currency"%string
  = Some "INR"%string.
Proof.
  split; [vm_compute; reflexivity|].
  apply (settings_setMany_then_getAll calm 3
           [ ("currency"%string, "INR"%string) ] office _
           {| User.name := "owner"%string;
              User.password := toy_hash "secret" 7;
              User.role := "admin"%string;
              User.active := false; User.createdAt := 0 |}).
  - vm_compute. reflexivity.
  - reflexivity.
  - intros i Hi. reflexivity.
  - repeat constructor. intros [].
  - left. reflexivity.
  - discriminate.
Defined.

(** X19. When [settings:setMany] fails with an error of [assertAdmin], it
    has written no setting, the caller has no user row with the role
    admin, and the error is "Current user not found" exactly when the
    caller has no user row at all. *)
Theorem settings_setMany_refusal (env : Env) (currentUserId : Z)
    (values : list (string * string)) (db : Db)
    (settings settings' : gmap string Setting.t) (e : HandlerError) :
  settings_setMany env currentUserId values db settings
    = (settings', Refused e) ->
  settings' = settings /\
  (forall u, users db !! currentUserId = Some u ->
     User.role u <> "admin"%string) /\
  (e = CurrentUserNotFound <-> users db !! currentUserId = None) /\
  (e = AccessDenied <-> is_present (users db) currentUserId = true).
Proof.
  unfold settings_setMany, assertAdmin, is_present.
  destruct (users db !! currentUserId) as [u|] eqn:Hu.
  - destruct (String.eqb (User.role u) "admin") eqn:Hr.
    { cbv zeta.
      destruct (upsert_entries env (clock env 0) 0 values settings)
        as [s' [[]|e']]; discriminate. }
    intros [= <- <-]. split; [reflexivity|]. split; [|split].
    + intros u' [= <-]. apply String.eqb_neq. exact Hr.
    + split; discriminate.
    + split; reflexivity.
  - intros [= <- <-]. split; [reflexivity|]. split; [|split].
    + intros u'. discriminate.
    + split; reflexivity.
    + split; discriminate.
Qed.

Lemma settings_setMany_refusal_witness :
  settings_setMany calm 1 [ ("currency"%string, "INR"%string) ] shop ∅
    = (∅, Refused AccessDenied) /\
  forall u, users shop !! 1 = Some u -> User.role u <> "admin"%string.
Proof.
  split; [vm_compute; reflexivity|].
  apply (settings_setMany_refusal calm 1
           [ ("currency"%string, "INR"%string) ] shop ∅ ∅ AccessDenied).
  vm_compute. reflexivity.
Defined.

(** ** Store settings *)

Lemma max_key_fresh {A : Type} (m : gmap Z A) (seq : Z) :
  m !! next_rowid seq (max_key m) = None.
Proof.
  destruct (m !! next_rowid seq (max_key m)) as [v|] eqn:E; [|reflexivity].
  apply max_key_ge in E. unfold next_rowid in E. lia.
Qed.

(** X20. [storeSettings:upsert] for an existing user, when the store does
    not fail, answers ok and leaves that user with at least one settings
    row, every one of them equal to the patch: a flag that the call omits
    is stored as false, whatever it was.  The rows of other users stay as
    they are. *)
Theorem storeSettings_upsert_overwrites (env : Env) (seq : Z)
    (args : StoreSettingsArgs) (db : Db) :
  io_fault env O = false ->
  is_present (users db) (ss_userId args) = true ->
  let after := storeSettings_upsert env seq args db in
  snd after = Replied tt /\
  (exists id, storeSettings (fst after) !! id = Some (storeSettings_patch args)) /\
  (forall id row,
     storeSettings (fst after) !! id = Some row ->
     StoreSettings.userId row = Some (ss_userId args) ->
     row = storeSettings_patch args /\
     (ss_allowNegativeStock args = None ->
      StoreSettings.allowNegativeStock row = false)) /\
  (forall id row,
     StoreSettings.userId row <> Some (ss_userId args) ->
     storeSettings (fst after) !! id = Some row <->
     storeSettings db !! id = Some row).
Proof.
  intros Hf Hu. unfold storeSettings_upsert, handle, bind, readDb.
  cbv beta iota.
  assert (forall row, row = storeSettings_patch args ->
            row = storeSettings_patch args /\
            (ss_allowNegativeStock args = None ->
             StoreSettings.allowNegativeStock row = false)) as Hpatch.
  { intros row ->. split; [reflexivity|]. intros E.
    unfold storeSettings_patch. rewrite E. reflexivity. }
  destruct (has_storeSettings (ss_userId args) db) eqn:Hex;
    cbn [negb]; unfold run; rewrite Hf.
  - (* a row exists: UPDATE *)
    unfold update_storeSettings. rewrite Hex.
    cbn [storeSettings_patch StoreSettings.userId]. rewrite Hu.
    cbn [negb andb]. unfold ret. cbn [fst snd set_storeSettings_table storeSettings].
    split; [reflexivity|]. split; [|split].
    + unfold has_storeSettings in Hex. apply bool_decide_eq_true in Hex.
      destruct Hex as (id & row & Hid & Hrow). exists id.
      rewrite lookup_fmap, Hid. cbn. rewrite Hrow. reflexivity.
    + intros id row. rewrite lookup_fmap.
      destruct (storeSettings db !! id) as [row0|]; [|discriminate].
      cbn. destruct (settings_of (ss_userId args) row0) eqn:E.
      * intros [= <-] _. apply Hpatch. reflexivity.
      * intros [= <-] Hrow. unfold settings_of in E.
        apply bool_decide_eq_false in E. contradiction.
    + intros id row Hrow. rewrite lookup_fmap.
      destruct (storeSettings db !! id) as [row0|]; [|split; discriminate].
      cbn. destruct (settings_of (ss_userId args) row0) eqn:E.
      * split; intros [= <-].
        -- exfalso. apply Hrow. reflexivity.
        -- unfold settings_of in E. apply bool_decide_eq_true in E.
           contradiction.
      * reflexivity.
  - (* no row: INSERT *)
    unfold insert_storeSettings.
    cbn [storeSettings_patch StoreSettings.userId]. rewrite Hu.
    unfold ret. cbn [fst snd set_storeSettings_table storeSettings].
    pose proof (max_key_fresh (storeSettings db) seq) as Hfresh.
    assert (forall id row, storeSettings db !! id = Some row ->
              StoreSettings.userId row <> Some (ss_userId args)) as Hnone.
    { intros id row Hid Hrow. unfold has_storeSettings in Hex.
      apply bool_decide_eq_false in Hex. apply Hex. exists id, row.
      split; [exact Hid|]. unfold settings_of. apply bool_decide_eq_true.
      exact Hrow. }
    split; [reflexivity|]. split; [|split].
    + eexists. rewrite lookup_insert_eq. reflexivity.
    + intros id row. rewrite lookup_insert. case_decide as E.
      * intros [= <-] _. apply Hpatch. reflexivity.
      * intros Hid Hrow. exfalso. exact (Hnone _ _ Hid Hrow).
    + intros id row Hrow. rewrite lookup_insert. case_decide as E.
      * subst id. rewrite Hfresh. split; [|discriminate].
        intros [= <-]. exfalso. apply Hrow. reflexivity.
      * reflexivity.
Qed.

Lemma storeSettings_upsert_overwrites_witness :
  StoreSettings.allowNegativeStock <$> (storeSettings shop !! 1) = Some true /\
  forall id row,
    storeSettings
      (fst (storeSettings_upsert calm 1 (mkStoreSettingsArgs 1 None) shop))
      !! id = Some row ->
    StoreSettings.userId row = Some 1 ->
    row = storeSettings_patch (mkStoreSettingsArgs 1 None) /\
    (ss_allowNegativeStock (mkStoreSettingsArgs 1 None) = None ->
     StoreSettings.allowNegativeStock row = false).
Proof.
  split; [vm_compute; reflexivity|].
  apply (storeSettings_upsert_overwrites calm 1 (mkStoreSettingsArgs 1 None)
           shop).
  - reflexivity.
  - vm_compute. reflexivity.
Defined.

(** ** Passwords *)

(** X21. [auth:change-password] cannot change a password: when it answers
    ok, the password it was given is the one the stored hash already
    accepted, and, for a [bcrypt] whose [compare] accepts what its [hash]
    produces, it is the one the new hash accepts; nothing else of the user
    and no other user is changed. *)
Theorem change_password_keeps_the_password
    (bcrypt_hash : string -> nat -> string)
    (bcrypt_compare : string -> string -> bool)
    (env : Env) (salt : nat) (currentUserId : Z) (password : string)
    (db db' : Db) :
  (forall p r, bcrypt_compare p (bcrypt_hash p r) = true) ->
  auth_change_password bcrypt_hash bcrypt_compare env salt currentUserId
    password db = (db', Done tt) ->
  exists u u',
    users db !! currentUserId = Some u /\
    users db' !! currentUserId = Some u' /\
    bcrypt_compare password (User.password u) = true /\
    bcrypt_compare password (User.password u') = true /\
    u' = set_password (bcrypt_hash password salt) u /\
    forall id, id <> currentUserId -> users db' !! id = users db !! id.
Proof.
  intros Hb. unfold auth_change_password.
  destruct (users db !! currentUserId) as [u|] eqn:Hu; [|discriminate].
  destruct (bcrypt_compare password (User.password u)) eqn:Hc;
    cbn [negb]; [|discriminate].
  unfold run. destruct (io_fault env O); [discriminate|].
  unfold update_users_password. intros [= <-].
  exists u, (set_password (bcrypt_hash password salt) u).
  cbn [set_users users].
  split; [reflexivity|]. split; [|split; [|split; [|split]]].
  - rewrite lookup_alter. case_decide; [|congruence]. rewrite Hu.
    reflexivity.
  - exact Hc.
  - cbn [set_password User.password]. apply Hb.
  - reflexivity.
  - intros id Hid. rewrite lookup_alter_ne; [reflexivity|]. congruence.
Qed.

Lemma change_password_keeps_the_password_witness :
  auth_change_password toy_hash toy_compare calm 9 3 "secret" office
  = (set_users (alter (set_password (toy_hash "secret" 9)) 3 (users office))
       office, Done tt) /\
  exists u u',
    users office !! 3 = Some u /\
    users (set_users (alter (set_password (toy_hash "secret" 9)) 3
                        (users office)) office) !! 3 = Some u' /\
    toy_compare "secret" (User.password u) = true /\
    toy_compare "secret" (User.password u') = true /\
    u' = set_password (toy_hash "secret" 9) u /\
    forall id, id <> 3 ->
      users (set_users (alter (set_password (toy_hash "secret" 9)) 3
                          (users office)) office) !! id
      = users office !! id.
Proof.
  split; [vm_compute; reflexivity|].
  apply (change_password_keeps_the_password toy_hash toy_compare calm 9 3
           "secret" office).
  - intros p r. unfold toy_compare, toy_hash. apply String.eqb_refl.
  - vm_compute. reflexivity.
Defined.

(** ** The dashboard *)

Lemma jsmap_get_set_eq (k : Z) (v : Q) (m : list (Z * Q)) :
  jsmap_get k (jsmap_set k v m) = Some v.
Proof.
  induction m as [|[k' v'] m IH]; simpl.
  - rewrite Z.eqb_refl. reflexivity.
  - destruct (Z.eqb k' k) eqn:E; simpl.
    + rewrite Z.eqb_refl. reflexivity.
    + rewrite E. exact IH.
Qed.

Lemma jsmap_get_set_ne (k k' : Z) (v : Q) (m : list (Z * Q)) :
  k <> k' -> jsmap_get k' (jsmap_set k v m) = jsmap_get k' m.
Proof.
  intros Hk. induction m as [|[k0 v0] m IH]; simpl.
  - destruct (Z.eqb_spec k k'); [contradiction|reflexivity].
  - destruct (Z.eqb_spec k0 k) as [->|E0]; simpl.
    + destruct (Z.eqb_spec k k'); [contradiction|reflexivity].
    + destruct (Z.eqb k0 k'); [reflexivity|exact IH].
Qed.

Lemma jsmap_get_In (k : Z) (v : Q) (m : list (Z * Q)) :
  jsmap_get k m = Some v -> In (k, v) m.
Proof.
  induction m as [|[k' v'] m IH]; simpl; [discriminate|].
  destruct (Z.eqb_spec k' k) as [->|E].
  - intros [= ->]. left. reflexivity.
  - intros H. right. apply IH. exact H.
Qed.

Lemma jsmap_set_keys_once (k : Z) (v : Q) (m : list (Z * Q)) :
  keys_once m -> keys_once (jsmap_set k v m).
Proof.
  induction m as [|[k' v'] m IH]; simpl.
  - intros _. split; [reflexivity|exact I].
  - intros [Hk' Hm]. destruct (Z.eqb_spec k' k) as [->|E]; simpl.
    + split; assumption.
    + split; [|apply IH; exact Hm].
      rewrite jsmap_get_set_ne; [exact Hk'|congruence].
Qed.

Lemma jsmap_In_get (k : Z) (v : Q) (m : list (Z * Q)) :
  keys_once m -> In (k, v) m -> jsmap_get k m = Some v.
Proof.
  induction m as [|[k' v'] m IH]; simpl; [intros _ []|].
  intros [Hk' Hm] [[= -> ->]|Hin].
  - rewrite Z.eqb_refl. reflexivity.
  - destruct (Z.eqb_spec k' k) as [->|E]; [|apply IH; assumption].
    rewrite (IH Hm Hin) in Hk'. discriminate.
Qed.

Lemma dashboard_byProduct_snoc (logs : list ProductLog.t) (l : ProductLog.t) :
  dashboard_byProduct (logs ++ [l])
  = if negb (String.eqb (ProductLog.type l) "sale")
    then dashboard_byProduct logs
    else jsmap_set (ProductLog.productId l)
           (default 0%Q (jsmap_get (ProductLog.productId l)
                           (dashboard_byProduct logs))
            + orZero (ProductLog.quantity l))%Q
           (dashboard_byProduct logs).
Proof.
  unfold dashboard_byProduct. rewrite fold_left_app. reflexivity.
Qed.

Lemma sold_today_snoc (pid : Z) (logs : list ProductLog.t) (l : ProductLog.t) :
  sold_today pid (logs ++ [l])
  = if is_sale_of pid l
    then (sold_today pid logs + orZero (ProductLog.quantity l))%Q
    else sold_today pid logs.
Proof.
  unfold sold_today. rewrite List.filter_app. simpl.
  destruct (is_sale_of pid l).
  - rewrite fold_left_app. reflexivity.
  - rewrite app_nil_r. reflexivity.
Qed.

Lemma dashboard_byProduct_keys_once (logs : list ProductLog.t) :
  keys_once (dashboard_byProduct logs).
Proof.
  induction logs as [|l logs IH] using rev_ind; [exact I|].
  rewrite dashboard_byProduct_snoc.
  destruct (negb _); [exact IH|]. apply jsmap_set_keys_once. exact IH.
Qed.

(** The map holds, for every product with a sale entry, the quantity of its
    sale entries, and no other key. *)
Lemma dashboard_byProduct_get (logs : list ProductLog.t) (pid : Z) :
  jsmap_get pid (dashboard_byProduct logs)
  = if existsb (is_sale_of pid) logs then Some (sold_today pid logs) else None.
Proof.
  induction logs as [|l logs IH] using rev_ind; [reflexivity|].
  rewrite dashboard_byProduct_snoc, existsb_app, sold_today_snoc.
  cbn [existsb]. rewrite orb_false_r. unfold is_sale_of at 2 3.
  destruct (String.eqb (ProductLog.type l) "sale"); cbn [negb andb].
  - destruct (Z.eqb_spec (ProductLog.productId l) pid) as [->|E].
    + rewrite jsmap_get_set_eq, IH.
      destruct (existsb (is_sale_of pid) logs) eqn:Ex; cbn [orb default].
      * reflexivity.
      * unfold sold_today.
        rewrite (filter_none _ _ (existsb_false_Forall _ _ Ex)).
        reflexivity.
    + rewrite jsmap_get_set_ne, IH, orb_false_r; [reflexivity|exact E].
  - rewrite IH, orb_false_r. reflexivity.
Qed.

Lemma dashboard_topSellingProduct_snoc (m : list (Z * Q)) (entry : Z * Q) :
  dashboard_topSellingProduct (m ++ [entry])
  = match dashboard_topSellingProduct m with
    | None => Some entry
    | Some (k, topQty) =>
        if Qltb topQty (snd entry) then Some entry else Some (k, topQty)
    end.
Proof.
  unfold dashboard_topSellingProduct. rewrite fold_left_app. simpl.
  destruct (fold_left _ m None) as [[k q]|]; reflexivity.
Qed.

Lemma dashboard_topSellingProduct_spec (m : list (Z * Q)) :
  match dashboard_topSellingProduct m with
  | None => m = []
  | Some (k, q) =>
      In (k, q) m /\ forall k' q', In (k', q') m -> (q' <= q)%Q
  end.
Proof.
  induction m as [|[ke qe] m IH] using rev_ind; [reflexivity|].
  rewrite dashboard_topSellingProduct_snoc.
  destruct (dashboard_topSellingProduct m) as [[k q]|].
  - destruct IH as [Hin Hmax]. cbn [snd].
    destruct (Qltb q qe) eqn:E.
    + apply Qltb_lt in E. split; [apply in_or_app; right; left; reflexivity|].
      intros k' q' H. apply in_app_or in H as [H|[[= <- <-]|[]]].
      * apply Qle_trans with q; [exact (Hmax _ _ H)|apply Qlt_le_weak; exact E].
      * apply Qle_refl.
    + apply Qltb_ge in E. split; [apply in_or_app; left; exact Hin|].
      intros k' q' H. apply in_app_or in H as [H|[[= <- <-]|[]]].
      * exact (Hmax _ _ H).
      * exact E.
  - subst m. split; [left; reflexivity|].
    intros k' q' [[= <- <-]|[]]. apply Qle_refl.
Qed.

(** X22. The top seller of [reports:todayDashboard]: when the computation
    names a product and a quantity, the logs hold a sale entry of that
    product, the quantity is the sum of the quantities of its sale entries,
    and no product's sale entries add up to more; entries of other types
    do not count. *)
Theorem top_selling_is_a_best_seller (logs : list ProductLog.t)
    (pid : Z) (qty : Q) :
  dashboard_topSellingProduct (dashboard_byProduct logs) = Some (pid, qty) ->
  existsb (is_sale_of pid) logs = true /\
  qty = sold_today pid logs /\
  forall pid', existsb (is_sale_of pid') logs = true ->
    (sold_today pid' logs <= qty)%Q.
Proof.
  intros Htop.
  pose proof (dashboard_topSellingProduct_spec (dashboard_byProduct logs)) as S.
  rewrite Htop in S. destruct S as [Hin Hmax].
  apply jsmap_In_get in Hin; [|apply dashboard_byProduct_keys_once].
  rewrite dashboard_byProduct_get in Hin.
  destruct (existsb (is_sale_of pid) logs); [|discriminate].
  injection Hin as <-. split; [reflexivity|]. split; [reflexivity|].
  intros pid' Hex. apply (Hmax pid'). apply jsmap_get_In.
  rewrite dashboard_byProduct_get, Hex. reflexivity.
Qed.

Lemma top_selling_is_a_best_seller_witness :
  dashboard_topSellingProduct (dashboard_byProduct logs_of_a_day)
    = Some (1, (0 + 2 + (3 # 2))%Q) /\
  (sold_today 2 logs_of_a_day <= 0 + 2 + (3 # 2))%Q.
Proof.
  split; [vm_compute; reflexivity|].
  apply (top_selling_is_a_best_seller logs_of_a_day 1 (0 + 2 + (3 # 2))%Q).
  - vm_compute. reflexivity.
  - vm_compute. reflexivity.
Defined.

(** X23. The computation names no top seller exactly when the logs hold no
    sale entry. *)
Theorem no_top_seller_without_sales (logs : list ProductLog.t) :
  dashboard_topSellingProduct (dashboard_byProduct logs) = None <->
  Forall (fun l => String.eqb (ProductLog.type l) "sale" = false) logs.
Proof.
  pose proof (dashboard_topSellingProduct_spec (dashboard_byProduct logs)) as S.
  split.
  - intros Htop. rewrite Htop in S. apply List.Forall_forall. intros l Hl.
    destruct (String.eqb (ProductLog.type l) "sale") eqn:E; [|reflexivity].
    pose proof (dashboard_byProduct_get logs (ProductLog.productId l)) as G.
    rewrite S in G. simpl in G.
    destruct (existsb (is_sale_of (ProductLog.productId l)) logs) eqn:Ex;
      [discriminate|].
    apply existsb_false_Forall in Ex.
    rewrite List.Forall_forall in Ex. specialize (Ex l Hl).
    unfold is_sale_of in Ex. rewrite E, Z.eqb_refl in Ex. discriminate.
  - intros Hno.
    destruct (dashboard_topSellingProduct (dashboard_byProduct logs))
      as [[k q]|]; [|reflexivity].
    destruct S as [Hin _]. exfalso.
    apply jsmap_In_get in Hin; [|apply dashboard_byProduct_keys_once].
    rewrite dashboard_byProduct_get in Hin.
    destruct (existsb (is_sale_of k) logs) eqn:Ex; [|discriminate].
    apply existsb_exists in Ex as (l & Hl & Hs).
    rewrite List.Forall_forall in Hno. specialize (Hno l Hl).
    unfold is_sale_of in Hs. rewrite Hno in Hs. discriminate.
Qed.

(** ** Deleting a user *)

(** X24. [users:delete] cannot delete a user that a row references: for
    an admin caller and an existing user who has made a sale or has a
    settings or notifications row, the handler fails and deletes nothing,
    not the user and not the rows its later statements are there to
    remove. *)
Theorem users_delete_blocked_by_own_rows (env : Env) (currentUserId id : Z)
    (db : Db) (side : UserRows) (admin : User.t) :
  assertAdmin currentUserId db = inr admin ->
  is_present (users db) id = true ->
  references_user id db side = true ->
  exists e,
    users_delete env currentUserId id db side = ((db, side), Broke e) /\
    (io_fault env 0 = false -> e = ForeignKeyConstraint).
Proof.
  intros Ha Hu Hr. unfold users_delete. rewrite Ha, Hu, Hr.
  destruct (io_fault env 0).
  - exists IoError. split; [reflexivity|discriminate].
  - exists ForeignKeyConstraint. split; reflexivity.
Qed.

Lemma users_delete_blocked_by_own_rows_witness :
  references_user 1 office (mkUserRows [] []) = true /\
  exists e,
    users_delete calm 3 1 office (mkUserRows [] [])
      = ((office, mkUserRows [] []), Broke e) /\
    (io_fault calm 0 = false -> e = ForeignKeyConstraint).
Proof.
  split; [vm_compute; reflexivity|].
  apply (users_delete_blocked_by_own_rows calm 3 1 office (mkUserRows [] [])
           {| User.name := "owner"%string;
              User.password := toy_hash "secret" 7;
              User.role := "admin"%string;
              User.active := false; User.createdAt := 0 |}).
  - vm_compute. reflexivity.
  - vm_compute. reflexivity.
  - vm_compute. reflexivity.
Defined.

(** X25. When [users:delete] of an existing user goes through, its three
    clean-up statements found nothing to delete: the settings and
    notifications tables are as before, and of the store only the user's
    row is gone. *)
Theorem users_delete_cleanup_is_idle (env : Env) (currentUserId id : Z)
    (db db' : Db) (side side' : UserRows) :
  is_present (users db) id = true ->
  users_delete env currentUserId id db side = ((db', side'), Done tt) ->
  side' = side /\ db' = set_users (delete id (users db)) db.
Proof.
  intros Hu. unfold users_delete.
  destruct (assertAdmin currentUserId db); [discriminate|].
  destruct (io_fault env 0); [discriminate|]. rewrite Hu. cbn [andb].
  destruct (references_user id db side) eqn:Hr; [discriminate|].
  destruct (io_fault env 1); [discriminate|].
  destruct (io_fault env 2); [discriminate|].
  destruct (io_fault env 3); [discriminate|].
  cbv zeta. cbn [userSettings notifications]. intros [= <- <-].
  unfold references_user in Hr.
  apply orb_false_elim in Hr as [Hr Hn].
  apply orb_false_elim in Hr as [Hr Hs].
  apply orb_false_elim in Hr as [_ Hss].
  split.
  - destruct side as [us ns]. cbn [userSettings notifications] in *.
    f_equal.
    + apply filter_all. apply existsb_false_Forall in Hs.
      revert Hs. apply List.Forall_impl. intros u ->. reflexivity.
    + apply filter_all. apply existsb_false_Forall in Hn.
      revert Hn. apply List.Forall_impl. intros u ->. reflexivity.
  - destruct db. unfold set_storeSettings_table, set_users.
    cbn [users products receipts transactions transactionItems productLogs
         storeSettings sqlite_sequence] in *.
    f_equal. apply map_filter_id. intros k row Hk. cbn [snd].
    unfold has_storeSettings in Hss. apply bool_decide_eq_false in Hss.
    destruct (settings_of id row) eqn:E; [|reflexivity].
    exfalso. apply Hss. exists k, row. split; assumption.
Qed.

Lemma users_delete_cleanup_is_idle_witness :
  users_delete calm 3 2 office (mkUserRows [1] [1])
    = ((set_users (delete 2 (users office)) office, mkUserRows [1] [1]),
       Done tt) /\
  mkUserRows [1] [1] = mkUserRows [1] [1] /\
  set_users (delete 2 (users office)) office
    = set_users (delete 2 (users office)) office.
Proof.
  split; [vm_compute; reflexivity|].
  apply (users_delete_cleanup_is_idle calm 3 2 office
           (set_users (delete 2 (users office)) office)
           (mkUserRows [1] [1]) (mkUserRows [1] [1])).
  - vm_compute. reflexivity.
  - vm_compute. reflexivity.
Defined.
